(** * A shallow embedding of [submit_to_google_play.py]

    The script drives the Google Play "edit" protocol: load the service
    account credentials, build the API client, open an edit, upload the
    bundle with a resumable upload, update a track with one release and
    commit the edit.  Everything that talks to the outside world is an
    oracle (a [reply]) fixed in an environment record; the program is a
    state-and-exception monad whose state records every remote or
    client-setup call with whether it raised, and the progress values the
    upload loop prints.

    Python floats ([rollout_percentage], [status.progress()]) are modelled
    by their values, rationals [Q].  Comparisons of floats are exact in
    Python too; the division [rollout_percentage / 100.0] is rounded to
    binary64 as Python does ([float_div]).  The product
    [status.progress() * 100] of the progress display is taken exactly. *)

From Stdlib Require Import List Ascii String ZArith QArith Qpower Qround Lia Lqa.
Import ListNotations.
Open Scope string_scope.
Open Scope list_scope.

(** ** Data returned by the service *)

(** A call to an external operation either returns or raises. *)
Inductive reply (A : Type) : Type :=
| Reply (a : A)
| Fail (msg : string).
Arguments Reply {A} a.
Arguments Fail {A} msg.

(** The dict returned by [edits().insert(...).execute()]; the key ['id']
    may be absent (then [edit['id']] raises [KeyError]). *)
Record EditResp := { resp_id : option string }.

(** The dict returned by the last chunk of [bundles().upload]. *)
Record BundleResp := { versionCode : option Z }.

(** [status, response = bundle_request.next_chunk()]: [status] is a
    [MediaUploadProgress] (modelled by its [progress()] value) or [None],
    [response] the final dict or [None]. *)
Definition chunk_ack := (option Q * option BundleResp)%type.

(** ** The release dict [release_config] *)

Record ReleaseNote := { language : string; text : string }.

(** Keys ['status'] and ['userFraction'] are set conditionally, hence
    [option]. *)
Record ReleaseConfig := {
  versionCodes : list Z;
  releaseNotes : list ReleaseNote;
  status : option string;
  userFraction : option Q }.

Definition set_status (s : string) (c : ReleaseConfig) : ReleaseConfig :=
  {| versionCodes := versionCodes c; releaseNotes := releaseNotes c;
     status := Some s; userFraction := userFraction c |}.

Definition set_userFraction (f : Q) (c : ReleaseConfig) : ReleaseConfig :=
  {| versionCodes := versionCodes c; releaseNotes := releaseNotes c;
     status := status c; userFraction := Some f |}.

(** Python's [a < b] on the rollout value. *)
Definition Qltb (a b : Q) : bool := negb (Qle_bool b a).

(** ** Python floats

    A Python float is an IEEE 754 binary64 number; the model keeps its
    value.  The result of a float operation is its exact value rounded to
    the nearest binary64 number, ties to even: a 53-bit significand and a
    quantum [2^k] never below [2^-1074] (subnormals).  Results too large for
    binary64 (infinities) do not arise from the operation modelled here, a
    division by 100.  The sign of a zero result is not kept: [-0.0] is
    [0]. *)

(** For [0 < x], the [e] with [2^e <= x < 2^(e+1)]. *)
Definition log2_floor (x : Q) : Z :=
  let e := (Z.log2 (Qnum x) - Z.log2 (Zpos (Qden x)))%Z in
  if Qle_bool (2 ^ e) x then e else (e - 1)%Z.

(** The integer nearest to [y], ties to even. *)
Definition round_half_even (y : Q) : Z :=
  let f := Qfloor y in
  match Qcompare (y - inject_Z f) (1 # 2) with
  | Lt => f
  | Gt => (f + 1)%Z
  | Eq => if Z.even f then f else (f + 1)%Z
  end.

(** The binary64 number nearest to [a >= 0]. *)
Definition round_mag (a : Q) : Q :=
  let k := Z.max (log2_floor a - 52) (-1074) in
  inject_Z (round_half_even (a / 2 ^ k)) * 2 ^ k.

Definition round64 (x : Q) : Q :=
  if Qle_bool 0 x then round_mag x else - round_mag (- x).

(** Python's [a / b] on floats. *)
Definition float_div (a b : Q) : Q := round64 (a / b).

(** The finite binary64 numbers (exponent range bounded below only). *)
Definition is_binary64 (r : Q) : Prop :=
  exists m e : Z, (Z.abs m < 2 ^ 53)%Z /\ (-1074 <= e)%Z /\ r == inject_Z m * 2 ^ e.

(** Lines 189-208 of [upload_to_google_play]. *)
Definition release_config (version_code : Z) (release_notes track : string)
    (rollout_percentage : Q) (draft : bool) : ReleaseConfig :=
  let base :=
    {| versionCodes := [version_code];
       releaseNotes := [{| language := "en-US"; text := release_notes |}];
       status := None; userFraction := None |} in
  if draft then set_status "draft" base
  else if String.eqb track "production" && Qltb rollout_percentage 100
  then set_userFraction (float_div rollout_percentage 100) (set_status "inProgress" base)
  else set_status "completed" base.

(** ** Calls, trace and the monad *)

Inductive call :=
| CLoadCredentials                       (* from_service_account_file *)
| CBuildClient                           (* build('androidpublisher', ...) *)
| CInsert (packageName : string)         (* edits().insert(...).execute() *)
| CNextChunk (packageName editId : string)   (* bundle_request.next_chunk() *)
| CUpdate (packageName editId track : string) (releases : list ReleaseConfig)
                                         (* edits().tracks().update(...).execute() *)
| CCommit (packageName editId : string). (* edits().commit(...).execute() *)

Record event := { ev_call : call; ev_ok : bool }.

Record st := { trace : list event; shown : list Z }.

Inductive exc :=
| HttpError (msg : string)
| KeyError (key : string)
| OSError (msg : string)
| ReadError (msg : string).   (* what [open]/[f.read()] raised: an [OSError],
                                 or a [UnicodeDecodeError] for undecodable text *)

(** [NoReturn]: the upload loop did not see a final response within the
    acknowledgements the environment provides. *)
Inductive outcome (A : Type) :=
| Ret (a : A)
| Raise (e : exc)
| NoReturn.
Arguments Ret {A} a.
Arguments Raise {A} e.
Arguments NoReturn {A}.

Definition M (A : Type) := st -> outcome A * st.

Definition ret {A} (a : A) : M A := fun s => (Ret a, s).

Definition bind {A B} (m : M A) (f : A -> M B) : M B := fun s =>
  match m s with
  | (Ret a, s') => f a s'
  | (Raise e, s') => (Raise e, s')
  | (NoReturn, s') => (NoReturn, s')
  end.

Definition throw {A} (e : exc) : M A := fun s => (Raise e, s).

Notation "x <- m ;; k" := (bind m (fun x => k))
  (at level 61, m at next level, right associativity).
Notation "m ;; k" := (bind m (fun _ => k))
  (at level 61, right associativity).

Definition log (c : call) (ok : bool) (s : st) : st :=
  {| trace := trace s ++ [{| ev_call := c; ev_ok := ok |}]; shown := shown s |}.

(** Perform an external call: it is recorded, and raises when it fails. *)
Definition perform {A} (c : call) (r : reply A) : M A := fun s =>
  match r with
  | Reply a => (Ret a, log c true s)
  | Fail msg => (Raise (HttpError msg), log c false s)
  end.

(** A local operation that may raise (not recorded). *)
Definition local {A} (r : reply A) : M A := fun s =>
  match r with
  | Reply a => (Ret a, s)
  | Fail msg => (Raise (OSError msg), s)
  end.

(** Python's [int(x)], truncation toward zero. *)
Definition py_int (q : Q) : Z :=
  if Qle_bool 0 q then Qfloor q else (- Qfloor (- q))%Z.

(** [progress = int(status.progress() * 100)] and
    [print(f"... Progress: {progress}%")].  The product is taken exactly;
    Python rounds it to a float first, so the number shown can be one less
    than here ([0.29 * 100] is [28.999999999999996], shown as [28]). *)
Definition show_progress (p : Q) : M unit := fun s =>
  (Ret tt, {| trace := trace s; shown := shown s ++ [py_int (p * 100)] |}).

(** ** The environment: the file system and the service's answers *)

Record Env := {
  service_account_exists : bool;        (* os.path.exists(SERVICE_ACCOUNT_FILE) *)
  credentials_reply : reply unit;
  client_reply : reply unit;
  aab_size_reply : reply Z;             (* os.path.getsize / MediaFileUpload *)
  insert_reply : reply EditResp;
  chunk_replies : list (reply chunk_ack);
  update_reply : reply unit;
  commit_reply : reply unit }.

(** Lines 174-179:
<<
response = None
while response is None:
    status, response = bundle_request.next_chunk()
    if status:
        progress = int(status.progress() * 100)
        print(...)
>> *)
Fixpoint upload_loop (package_name edit_id : string)
    (acks : list (reply chunk_ack)) : M BundleResp :=
  match acks with
  | [] => fun s => (NoReturn, s)
  | a :: rest =>
      ack <- perform (CNextChunk package_name edit_id) a ;;
      let '(status, response) := ack in
      match status with
      | Some p => show_progress p
      | None => ret tt
      end ;;
      match response with
      | None => upload_loop package_name edit_id rest
      | Some r => ret r
      end
  end.

Definition get_key {A} (key : string) (v : option A) : M A :=
  match v with
  | Some a => ret a
  | None => throw (KeyError key)
  end.

(** The body of the [try] block, lines 144-249. *)
Definition upload_body (env : Env) (package_name aab_path track : string)
    (rollout_percentage : Q) (release_notes : string) (draft : bool) : M bool :=
  perform CLoadCredentials (credentials_reply env) ;;
  perform CBuildClient (client_reply env) ;;
  edit <- perform (CInsert package_name) (insert_reply env) ;;
  edit_id <- get_key "id" (resp_id edit) ;;
  local (aab_size_reply env) ;;
  response <- upload_loop package_name edit_id (chunk_replies env) ;;
  version_code <- get_key "versionCode" (versionCode response) ;;
  let cfg := release_config version_code release_notes track
               rollout_percentage draft in
  perform (CUpdate package_name edit_id track [cfg]) (update_reply env) ;;
  perform (CCommit package_name edit_id) (commit_reply env) ;;
  ret true.

(** [try: ... except Exception as e: ...; return False]. *)
Definition try_except_false (m : M bool) : M bool := fun s =>
  match m s with
  | (Raise _, s') => (Ret false, s')
  | r => r
  end.

(** [upload_to_google_play], lines 116-264. *)
Definition upload_to_google_play (env : Env) (package_name aab_path track : string)
    (rollout_percentage : Q) (release_notes : string) (draft : bool) : M bool :=
  if negb (service_account_exists env) then ret false
  else try_except_false
         (upload_body env package_name aab_path track rollout_percentage
            release_notes draft).

Definition init : st := {| trace := []; shown := [] |}.

Definition run (env : Env) (package_name aab_path track : string)
    (rollout_percentage : Q) (release_notes : string) (draft : bool)
    : outcome bool * st :=
  upload_to_google_play env package_name aab_path track rollout_percentage
    release_notes draft init.

(** ** Observations on a run *)

(** The release dicts sent in the [body] of every track update attempted. *)
Definition submitted_configs (t : list event) : list ReleaseConfig :=
  flat_map (fun e => match ev_call e with
                     | CUpdate _ _ _ rs => rs
                     | _ => []
                     end) t.

(** The final response with which the resumable upload completes, if the
    acknowledgements reach one before a failing chunk. *)
Fixpoint first_final (acks : list (reply chunk_ack)) : option BundleResp :=
  match acks with
  | [] => None
  | Reply (_, Some r) :: _ => Some r
  | Reply (_, None) :: rest => first_final rest
  | Fail _ :: _ => None
  end.

(** The order of the calls: credentials, client, open edit, one or more
    chunks, track update, commit.  [in_order 0 l] holds of every prefix of
    that sequence. *)
Definition step (q : nat) (c : call) : option nat :=
  match q, c with
  | 0%nat, CLoadCredentials => Some 1%nat
  | 1%nat, CBuildClient => Some 2%nat
  | 2%nat, CInsert _ => Some 3%nat
  | 3%nat, CNextChunk _ _ => Some 4%nat
  | 4%nat, CNextChunk _ _ => Some 4%nat
  | 4%nat, CUpdate _ _ _ _ => Some 5%nat
  | 5%nat, CCommit _ _ => Some 6%nat
  | _, _ => None
  end.

Fixpoint in_order (q : nat) (l : list call) : bool :=
  match l with
  | [] => true
  | c :: l' => match step q c with
               | Some q' => in_order q' l'
               | None => false
               end
  end.

(** The calls with the submitted releases erased. *)
Definition erase_body (c : call) : call :=
  match c with
  | CUpdate p e t _ => CUpdate p e t []
  | c => c
  end.

(** ** Sample environments *)

Definition happy_env (rest : list (reply chunk_ack)) : Env := {|
  service_account_exists := true;
  credentials_reply := Reply tt;
  client_reply := Reply tt;
  aab_size_reply := Reply 47185920%Z;
  insert_reply := Reply {| resp_id := Some "edit-1" |};
  chunk_replies :=
    [Reply (Some (1 # 3), None); Reply (Some (2 # 3), None);
     Reply (None, Some {| versionCode := Some 32%Z |})] ++ rest;
  update_reply := Reply tt;
  commit_reply := Reply tt |}.

Example run_happy_staged :
  let '(o, s) := run (happy_env []) "com.example.app" "app-release.aab"
                   "production" 10%Q "Bug fixes and improvements" false in
  o = Ret true /\ shown s = [33%Z; 66%Z] /\
  map ev_call (trace s) =
    [CLoadCredentials; CBuildClient; CInsert "com.example.app";
     CNextChunk "com.example.app" "edit-1"; CNextChunk "com.example.app" "edit-1";
     CNextChunk "com.example.app" "edit-1";
     CUpdate "com.example.app" "edit-1" "production"
       [{| versionCodes := [32%Z];
           releaseNotes := [{| language := "en-US"; text := "Bug fixes and improvements" |}];
           status := Some "inProgress"; userFraction := Some (float_div 10 100) |}];
     CCommit "com.example.app" "edit-1"].
Proof. vm_compute. repeat split. Qed.

Example release_config_draft :
  status (release_config 7 "n" "production" 10%Q true) = Some "draft".
Proof. reflexivity. Qed.

Example release_config_full :
  userFraction (release_config 7 "n" "production" 100%Q false) = None.
Proof. reflexivity. Qed.

(** ** The summary printed after a commit, lines 239-247 *)

Inductive summary_line :=
| SDraft                       (* "Status: DRAFT - go to Play Console to submit" *)
| SStaged (rollout : Q)        (* "Rollout: {rollout_percentage}% staged rollout" *)
| SSubmitted                   (* "Status: Submitted for review" *)
| SPublished (track : string). (* "Status: Published to {track}" *)

Definition summary_status (track : string) (rollout_percentage : Q) (draft : bool)
    : summary_line :=
  if draft then SDraft
  else if String.eqb track "production" then
    if Qltb rollout_percentage 100 then SStaged rollout_percentage else SSubmitted
  else SPublished track.

(** ** [get_package_name], lines 72-101 *)

Fixpoint str_forall (p : ascii -> bool) (s : string) : bool :=
  match s with
  | EmptyString => true
  | String c s' => p c && str_forall p s'
  end.

(** The double-quote and the single-quote characters. *)
Definition dq : ascii := ascii_of_nat 34.
Definition sq : ascii := ascii_of_nat 39.

(** Python's [\s] in a [str] pattern, on the code points 0-255:
    [\t\n\v\f\r], [\x1c]-[\x1f], space, [\x85] and [\xa0]. *)
Definition is_py_space (c : ascii) : bool :=
  let n := nat_of_ascii c in
  (Nat.leb 9 n && Nat.leb n 13) || (Nat.leb 28 n && Nat.leb n 32) ||
  Nat.eqb n 133 || Nat.eqb n 160.

Definition is_quote (c : ascii) : bool := Ascii.eqb c dq || Ascii.eqb c sq.

Fixpoint strip_prefix (p s : string) : option string :=
  match p, s with
  | EmptyString, _ => Some s
  | String a p', String b s' => if Ascii.eqb a b then strip_prefix p' s' else None
  | _, _ => None
  end.

(** [\s*], greedy. *)
Fixpoint skip_space (s : string) : string :=
  match s with
  | String c s' => if is_py_space c then skip_space s' else s
  | EmptyString => s
  end.

(** The longest prefix whose characters fail [stop], and the rest. *)
Fixpoint span_not (stop : ascii -> bool) (s : string) : string * string :=
  match s with
  | String c s' =>
      if stop c then (EmptyString, s)
      else let '(g, r) := span_not stop s' in (String c g, r)
  | EmptyString => (EmptyString, EmptyString)
  end.

(** The pattern of line 87, [applicationId\s*[=:]\s*[Q]([^Q]+)[Q] where
    [Q] stands for the two quote characters, matched at the start of [s],
    returning group 1.  Backtracking never finds another match: giving
    back a [\s] leaves a space where [[=:]] or a quote is needed, and
    giving back a non-quote of the group leaves a non-quote where a quote
    is needed; so each part is matched greedily once. *)
Definition match_application_id (s : string) : option string :=
  match strip_prefix "applicationId" s with
  | None => None
  | Some s0 =>
      match skip_space s0 with
      | String c s1 =>
          if Ascii.eqb c "=" || Ascii.eqb c ":" then
            match skip_space s1 with
            | String q s2 =>
                if is_quote q then
                  match span_not is_quote s2 with
                  | (String g0 g, String _ _) => Some (String g0 g)
                  | _ => None
                  end
                else None
            | EmptyString => None
            end
          else None
      | EmptyString => None
      end
  end.

(** The pattern of line 97, [package=D([^D]+)D] where [D] is the double
    quote, matched at the start of [s]. *)
Definition match_package (s : string) : option string :=
  match strip_prefix ("package=" ++ String dq EmptyString)%string s with
  | None => None
  | Some s0 =>
      match span_not (Ascii.eqb dq) s0 with
      | (String g0 g, String _ _) => Some (String g0 g)
      | _ => None
      end
  end.

(** [re.search]: the match at the leftmost position, the end included. *)
Fixpoint re_search (m : string -> option string) (s : string) : option string :=
  match m s with
  | Some g => Some g
  | None =>
      match s with
      | EmptyString => None
      | String _ s' => re_search m s'
      end
  end.

(** [os.path.join(a, b)] for two components. *)
Definition path_join (a b : string) : string :=
  match b with
  | String "/" _ => b
  | _ =>
      if String.eqb a "" then b
      else if String.eqb (substring (String.length a - 1) 1 a) "/" then (a ++ b)%string
      else (a ++ "/" ++ b)%string
  end.

(** The file system the script reads.  [fs_read p] is [None] when
    [os.path.exists(p)] is false, [Some (Fail _)] when [open]/[read]
    raises.  [fs_list d] lists the names in directory [d] in [os.scandir]
    order ([[]] when it does not exist); [fs_mtime] is [os.path.getmtime],
    which raises (an [OSError]) on a missing file or a broken symbolic link;
    [fs_abspath] is [os.path.abspath] in the current directory;
    [fs_glob pat] is what [glob.glob(pat)] returns, in its order, for a
    pattern whose directory part holds wildcards (it then expands them over
    the file system). *)
Record FS := {
  fs_read : string -> option (reply string);
  fs_list : string -> list string;
  fs_mtime : string -> reply Q;
  fs_abspath : string -> string;
  fs_glob : string -> list string }.

(** [if os.path.exists(path): with open(path) as f: ... match = re.search(...);
    if match: return match.group(1)], falling through to [k] otherwise. *)
Definition search_file (fs : FS) (path : string) (m : string -> option string)
    (k : reply (option string)) : reply (option string) :=
  match fs_read fs path with
  | None => k
  | Some (Fail msg) => Fail msg
  | Some (Reply content) =>
      match re_search m content with
      | Some g => Reply (Some g)
      | None => k
      end
  end.

Definition get_package_name (fs : FS) (project_path : string) : reply (option string) :=
  search_file fs (path_join project_path "android/app/build.gradle") match_application_id
    (search_file fs (path_join project_path "android/app/build.gradle.kts")
       match_application_id
       (search_file fs (path_join project_path "android/app/src/main/AndroidManifest.xml")
          match_package (Reply None))).

(** ** [find_aab_file], lines 104-113 *)

Definition ends_with (suf s : string) : bool :=
  let n := String.length s in
  let k := String.length suf in
  Nat.leb k n && String.eqb (substring (n - k) k s) suf.

(** [glob] of [*.aab] in one directory: [fnmatch] on the name (case
    sensitive on POSIX), names starting with ['.'] skipped. *)
Definition glob_aab_name (name : string) : bool :=
  match name with
  | String "." _ => false
  | _ => ends_with ".aab" name
  end.

(** [max(xs, key=key)]: the key of each item is computed in order (an
    exception of [key] propagates); an item replaces the current maximum
    only when its key is strictly greater, so the first maximal item wins. *)
Fixpoint py_max_by (key : string -> reply Q) (best : string) (best_key : Q)
    (l : list string) : reply string :=
  match l with
  | [] => Reply best
  | x :: l' =>
      match key x with
      | Fail msg => Fail msg
      | Reply kx =>
          if Qltb best_key kx then py_max_by key x kx l' else py_max_by key best best_key l'
      end
  end.

Definition aab_dir (project_path : string) : string :=
  path_join project_path "build/app/outputs/bundle/release".

(** The characters [glob] treats as wildcards ([glob.has_magic]). *)
Definition is_glob_magic (c : ascii) : bool :=
  Ascii.eqb c "*" || Ascii.eqb c "?" || Ascii.eqb c "[".

Definition glob_magic_free (s : string) : bool :=
  str_forall (fun c => negb (is_glob_magic c)) s.

(** [glob.glob(os.path.join(project_path, ".../release/*.aab"))]: when the
    directory part holds no wildcard ([glob.has_magic]), [glob] lists that
    directory and joins it to the matching names; otherwise it expands the
    wildcards of the directory part too ([fs_glob]). *)
Definition aab_candidates (fs : FS) (project_path : string) : list string :=
  let dir := aab_dir project_path in
  if glob_magic_free project_path
  then map (path_join dir) (filter glob_aab_name (fs_list fs dir))
  else fs_glob fs (path_join dir "*.aab").

Definition find_aab_file (fs : FS) (project_path : string) : reply (option string) :=
  match aab_candidates fs project_path with
  | [] => Reply None
  | f :: rest =>
      match fs_mtime fs f with
      | Fail msg => Fail msg
      | Reply kf =>
          match py_max_by (fs_mtime fs) f kf rest with
          | Fail msg => Fail msg
          | Reply m => Reply (Some m)
          end
      end
  end.

(** ** [main], lines 267-332, after [argparse] *)

Record Args := {
  arg_version : string;
  arg_project_path : string;
  arg_track : string;
  arg_rollout : Q;
  arg_draft : bool;
  arg_release_notes : string;
  arg_package_name : option string }.   (* [None] when [--package-name] is absent *)

(** The exit status ([sys.exit]); an uncaught exception is [Raise]. *)
(** Lines 299-302: [if args.package_name: ... else: get_package_name(...)];
    the empty string is false in Python. *)
Definition resolve_package (fs : FS) (project_path : string) (override : option string)
    : reply (option string) :=
  match override with
  | Some p => if String.eqb p "" then get_package_name fs project_path else Reply (Some p)
  | None => get_package_name fs project_path
  end.

Definition main (fs : FS) (env : Env) (args : Args) : outcome Z * st :=
  let project_path := fs_abspath fs (arg_project_path args) in
  match resolve_package fs project_path (arg_package_name args) with
  | Fail msg => (Raise (ReadError msg), init)
  | Reply None => (Ret 1%Z, init)
  | Reply (Some package_name) =>
      if String.eqb package_name "" then (Ret 1%Z, init)
      else
        match find_aab_file fs project_path with
        | Fail msg => (Raise (OSError msg), init)
        | Reply None => (Ret 1%Z, init)
        | Reply (Some aab_path) =>
            match run env package_name aab_path (arg_track args) (arg_rollout args)
                    (arg_release_notes args) (arg_draft args) with
            | (Ret success, s) => (Ret (if success then 0%Z else 1%Z), s)
            | (Raise e, s) => (Raise e, s)
            | (NoReturn, s) => (NoReturn, s)
            end
        end
  end.

(** * Properties of the float model *)

Lemma pow2_pos (e : Z) : 0 < 2 ^ e.
Proof. apply Qpower_0_lt. reflexivity. Qed.

Lemma pow2_le (a b : Z) : (a <= b)%Z -> 2 ^ a <= 2 ^ b.
Proof. intro H. apply Qpower_le_compat_l; [exact H | discriminate]. Qed.

Lemma pow2_plus (a b : Z) : 2 ^ (a + b) == 2 ^ a * 2 ^ b.
Proof. apply Qpower_plus. discriminate. Qed.

Lemma pow2_Z (n : Z) : (0 <= n)%Z -> inject_Z (2 ^ n) == 2 ^ n.
Proof. intro H. rewrite Zpower_Qpower by exact H. reflexivity. Qed.


Lemma log2_floor_le (x : Q) : 0 < x -> 2 ^ log2_floor x <= x.
Proof.
  intro Hx. unfold log2_floor.
  destruct (Qle_bool (2 ^ (Z.log2 (Qnum x) - Z.log2 (Zpos (Qden x)))) x) eqn:E;
    [apply Qle_bool_iff; exact E|].
  clear E. destruct x as [n d]. cbn [Qnum Qden] in *.
  assert (Hn : (0 < n)%Z) by (unfold Qlt in Hx; cbn in Hx; lia).
  destruct (Z.log2_spec n Hn) as [Hn1 _].
  destruct (Z.log2_spec (Zpos d) eq_refl) as [_ Hd2].
  assert (Ha : (0 <= Z.log2 n)%Z) by apply Z.log2_nonneg.
  assert (Hb : (0 <= Z.log2 (Zpos d))%Z) by apply Z.log2_nonneg.
  set (a := Z.log2 n) in *. set (b := Z.log2 (Zpos d)) in *.
  set (t := (a - b - 1)%Z).
  replace (a - b - 1)%Z with t by reflexivity.
  destruct (Z.le_gt_cases 0 t) as [Ht | Ht].
  - rewrite <- (pow2_Z t Ht). unfold Qle. cbn [Qnum Qden inject_Z].
    assert (Hab : (2 ^ t * 2 ^ Z.succ b = 2 ^ a)%Z)
      by (rewrite <- Z.pow_add_r by lia; f_equal; unfold t; lia).
    assert (H2t : (0 < 2 ^ t)%Z) by (apply Z.pow_pos_nonneg; lia).
    nia.
  - assert (Hpow : 2 ^ t == / inject_Z (2 ^ (- t))).
    { rewrite pow2_Z by lia. rewrite <- Qpower_opp, Z.opp_involutive. reflexivity. }
    rewrite Hpow.
    assert (Hab : (2 ^ a * 2 ^ (- t) = 2 ^ Z.succ b)%Z)
      by (rewrite <- Z.pow_add_r by lia; f_equal; unfold t; lia).
    assert (HP : (0 < 2 ^ (- t))%Z) by (apply Z.pow_pos_nonneg; lia).
    destruct (2 ^ (- t))%Z as [|p|p] eqn:EP; [lia | | lia].
    unfold Qle. cbn [Qinv inject_Z Qnum Qden]. nia.
Qed.

Lemma round_half_even_floor (y : Q) :
  (Qfloor y <= round_half_even y <= Qfloor y + 1)%Z.
Proof.
  unfold round_half_even.
  destruct (Qcompare_spec (y - inject_Z (Qfloor y)) (1 # 2)) as [H|H|H];
    [destruct (Z.even (Qfloor y))|..]; lia.
Qed.

Lemma round_half_even_le (y : Q) : inject_Z (round_half_even y) <= y + (1 # 2).
Proof.
  pose proof (Qfloor_le y) as Hf.
  unfold round_half_even.
  destruct (Qcompare_spec (y - inject_Z (Qfloor y)) (1 # 2)) as [H|H|H].
  - destruct (Z.even (Qfloor y)); [lra|].
    rewrite inject_Z_plus. change (inject_Z 1) with 1. lra.
  - lra.
  - rewrite inject_Z_plus. change (inject_Z 1) with 1. lra.
Qed.


Lemma round_half_even_nonneg (y : Q) : 0 <= y -> (0 <= round_half_even y)%Z.
Proof.
  intro H. pose proof (round_half_even_floor y) as [Hf _].
  pose proof (Qfloor_resp_le 0 y H) as H1. cbn in H1. lia.
Qed.

Lemma round_mag_nonneg (a : Q) : 0 <= a -> 0 <= round_mag a.
Proof.
  intro Ha. unfold round_mag.
  set (k := Z.max (log2_floor a - 52) (-1074)).
  apply Qmult_le_0_compat; [|apply Qlt_le_weak, pow2_pos].
  change 0 with (inject_Z 0). rewrite <- Zle_Qle. apply round_half_even_nonneg.
  apply Qle_shift_div_l; [apply pow2_pos|]. rewrite Qmult_0_l. exact Ha.
Qed.


(** Below 1, the rounding error is at most half of [2^-53]. *)
Lemma round_mag_below_1 (a : Q) : 0 < a -> a < 1 -> round_mag a <= a + 2 ^ (-54).
Proof.
  intros Ha0 Ha1. unfold round_mag.
  set (k := Z.max (log2_floor a - 52) (-1074)).
  assert (HL : (log2_floor a <= -1)%Z).
  { destruct (Z.le_gt_cases (log2_floor a) (-1)) as [H|H]; [exact H|].
    exfalso. pose proof (log2_floor_le a Ha0) as H1.
    pose proof (pow2_le 0 (log2_floor a) ltac:(lia)) as H2.
    change (2 ^ 0) with 1 in H2. lra. }
  assert (Hk : 2 ^ k <= 2 ^ (-53)) by (apply pow2_le; unfold k; lia).
  pose proof (pow2_pos k) as Hkpos.
  pose proof (round_half_even_le (a / 2 ^ k)) as Hr.
  apply Qle_trans with ((a / 2 ^ k + (1 # 2)) * 2 ^ k).
  - apply Qmult_le_compat_r; [exact Hr | apply Qlt_le_weak, Hkpos].
  - assert (Heq : (a / 2 ^ k + (1 # 2)) * 2 ^ k == a + (1 # 2) * 2 ^ k)
      by (field; apply Qnot_eq_sym, Qlt_not_eq, Hkpos).
    rewrite Heq. change (2 ^ (-54)) with ((1 # 2) * 2 ^ (-53)). lra.
Qed.

Lemma round_mag_zero (a : Q) : a == 0 -> round_mag a == 0.
Proof.
  intro Ha. unfold round_mag.
  set (k := Z.max (log2_floor a - 52) (-1074)).
  assert (Hy : a / 2 ^ k == 0) by (rewrite Ha; apply Qmult_0_l).
  pose proof (round_half_even_le (a / 2 ^ k)) as H1.
  pose proof (round_half_even_nonneg (a / 2 ^ k) ltac:(lra)) as H2.
  assert (H3 : (round_half_even (a / 2 ^ k) < 1)%Z).
  { rewrite Zlt_Qlt. change (inject_Z 1) with 1. lra. }
  replace (round_half_even (a / 2 ^ k)) with 0%Z by lia.
  apply Qmult_0_l.
Qed.

Lemma round64_nonneg (x : Q) : 0 <= x -> 0 <= round64 x.
Proof.
  intro H. unfold round64. apply Qle_bool_iff in H as H'. rewrite H'.
  apply round_mag_nonneg, H.
Qed.

Lemma round64_neg (x : Q) : x < 0 -> round64 x == - round_mag (- x).
Proof.
  intro H. unfold round64.
  destruct (Qle_bool 0 x) eqn:E; [|reflexivity].
  apply Qle_bool_iff in E. lra.
Qed.

Lemma round64_nonpos (x : Q) : x < 0 -> round64 x <= 0.
Proof.
  intro H. rewrite (round64_neg x H).
  pose proof (round_mag_nonneg (- x) ltac:(lra)). lra.
Qed.


Lemma binary64_below_100 (r : Q) :
  is_binary64 r -> r < 100 -> r <= 100 - 2 ^ (-46).
Proof.
  intros [m [e [Hm [He Hr]]]] Hlt. rewrite Hr in *. clear Hr r.
  change (2 ^ (-46)) with (1 # 70368744177664).
  destruct (Z.le_gt_cases (-46) e) as [He46 | He46].
  - set (d := (e + 46)%Z).
    assert (Hd : 2 ^ e == inject_Z (2 ^ d) * (1 # 70368744177664)).
    { rewrite pow2_Z by (unfold d; lia).
      change (1 # 70368744177664) with (2 ^ (-46)).
      rewrite <- pow2_plus. unfold d. replace (e + 46 + -46)%Z with e by lia.
      reflexivity. }
    rewrite Hd in *. rewrite Qmult_assoc, <- inject_Z_mult in *.
    set (N := (m * 2 ^ d)%Z) in *.
    assert (HN : (N < 7036874417766400)%Z).
    { rewrite Zlt_Qlt. change (inject_Z 7036874417766400) with (7036874417766400 # 1).
      lra. }
    assert (HN' : inject_Z N <= 7036874417766399 # 1).
    { change (7036874417766399 # 1) with (inject_Z 7036874417766399).
      rewrite <- Zle_Qle. lia. }
    lra.
  - assert (H1 : inject_Z m <= 9007199254740991 # 1).
    { change (9007199254740991 # 1) with (inject_Z 9007199254740991).
      rewrite <- Zle_Qle. lia. }
    assert (H2 : 2 ^ e <= 2 ^ (-47)) by (apply pow2_le; lia).
    change (2 ^ (-47)) with (1 # 140737488355328) in H2.
    pose proof (pow2_pos e) as H3.
    assert (H4 : inject_Z m * 2 ^ e <= (9007199254740991 # 1) * 2 ^ e)
      by (apply Qmult_le_compat_r; [exact H1 | apply Qlt_le_weak, H3]).
    assert (H5 : (9007199254740991 # 1) * 2 ^ e <= (9007199254740991 # 1) * (1 # 140737488355328))
      by (apply Qmult_le_l; [reflexivity | exact H2]).
    lra.
Qed.

(** Python's [r / 100.0] stays below [1.0] for a float [r < 100]. *)
Lemma float_div_100_lt_1 (r : Q) : is_binary64 r -> r < 100 -> float_div r 100 < 1.
Proof.
  intros Hb Hlt. pose proof (binary64_below_100 r Hb Hlt) as H.
  change (2 ^ (-46)) with (1 # 70368744177664) in H.
  unfold float_div.
  destruct (Qlt_le_dec (r / 100) 0) as [Hn | Hp].
  - pose proof (round64_nonpos _ Hn). lra.
  - unfold round64. apply Qle_bool_iff in Hp as Hp'. rewrite Hp'.
    destruct (Qeq_dec (r / 100) 0) as [Hz | Hz].
    + rewrite (round_mag_zero _ Hz). reflexivity.
    + assert (Hpos : 0 < r / 100) by (apply Qle_lteq in Hp as [Hp|Hp]; [exact Hp | symmetry in Hp; contradiction]).
      assert (Hx : r / 100 <= (100 - (1 # 70368744177664)) / 100)
        by (apply Qmult_le_r; [reflexivity | exact H]).
      assert (Hx1 : r / 100 < 1) by (eapply Qle_lt_trans; [exact Hx | reflexivity]).
      pose proof (round_mag_below_1 _ Hpos Hx1) as Hr.
      change (2 ^ (-54)) with (1 # 18014398509481984) in Hr.
      assert (Hc : (100 - (1 # 70368744177664)) / 100 + (1 # 18014398509481984) < 1) by reflexivity.
      lra.
Qed.

Lemma float_div_100_nonneg (r : Q) : 0 <= r -> 0 <= float_div r 100.
Proof.
  intro H. apply round64_nonneg. apply Qle_shift_div_l; [reflexivity|]. lra.
Qed.

Lemma float_div_100_nonpos (r : Q) : r < 0 -> float_div r 100 <= 0.
Proof.
  intro H. apply round64_nonpos. apply Qlt_shift_div_r; [reflexivity|]. lra.
Qed.


(** * Claims about the release dict *)

Lemma Qltb_spec (a b : Q) : Qltb a b = true <-> a < b.
Proof.
  unfold Qltb. split.
  - intro H. apply Qnot_le_lt. intro Hle.
    apply Qle_bool_iff in Hle. rewrite Hle in H. discriminate.
  - intro H. destruct (Qle_bool b a) eqn:E; [|reflexivity].
    apply Qle_bool_iff in E. exfalso. apply (Qlt_not_le a b); assumption.
Qed.

(** C2: on the [production] track, not as a draft, for a rollout value
    [r] in [[0, 100]] the release dict has status [inProgress] with user
    fraction [r / 100.0] (the float quotient) exactly when [r < 100], and otherwise status
    [completed] without a user fraction. *)
Theorem release_config_production_rollout (version_code : Z)
    (release_notes : string) (r : Q) (Hlo : 0 <= r) (Hhi : r <= 100) :
  let c := release_config version_code release_notes "production" r false in
  ((status c = Some "inProgress" /\ userFraction c = Some (float_div r 100)) <-> r < 100) /\
  (~ r < 100 -> status c = Some "completed" /\ userFraction c = None).
Proof.
  cbn zeta. unfold release_config. cbn [String.eqb andb].
  destruct (Qltb r 100) eqn:E.
  - apply Qltb_spec in E. cbn. split.
    + split; [intros _; exact E | intros _; split; reflexivity].
    + intro Hn. contradiction.
  - assert (Hn : ~ r < 100) by (intro H; apply Qltb_spec in H; congruence).
    cbn. split.
    + split; [intros [H _]; discriminate H | intro H; contradiction].
    + intros _. split; reflexivity.
Qed.

Lemma release_config_production_rollout_witness :
  (0 <= 10 /\ 10 <= 100) /\
  let c := release_config 32 "notes" "production" 10 false in
  ((status c = Some "inProgress" /\ userFraction c = Some (float_div 10 100)) <-> 10 < 100) /\
  (~ 10 < 100 -> status c = Some "completed" /\ userFraction c = None).
Proof.
  split.
  - split; vm_compute; discriminate.
  - apply (release_config_production_rollout 32 "notes" 10);
      vm_compute; discriminate.
Defined.

(** C5: as a draft, whatever the track and the rollout value, the release
    dict has status [draft] and no user fraction. *)
Theorem release_config_draft_no_fraction (version_code : Z)
    (release_notes track : string) (r : Q) :
  status (release_config version_code release_notes track r true) = Some "draft" /\
  userFraction (release_config version_code release_notes track r true) = None.
Proof. split; reflexivity. Qed.

(** C6: on a track other than [production], not as a draft, the release
    dict has status [completed] and no user fraction, whatever the rollout
    value. *)
Theorem release_config_other_track_completed (version_code : Z)
    (release_notes track : string) (r : Q) (Htrack : track <> "production") :
  status (release_config version_code release_notes track r false) = Some "completed" /\
  userFraction (release_config version_code release_notes track r false) = None.
Proof.
  unfold release_config.
  destruct (String.eqb_spec track "production") as [Heq | _];
    [contradiction | split; reflexivity].
Qed.

Lemma release_config_other_track_completed_witness :
  "beta" <> "production" /\
  status (release_config 32 "notes" "beta" 10 false) = Some "completed" /\
  userFraction (release_config 32 "notes" "beta" 10 false) = None.
Proof.
  split.
  - discriminate.
  - apply (release_config_other_track_completed 32 "notes" "beta" 10).
    discriminate.
Defined.

(** * Claims about a whole run *)

(** C9: when the service account file is missing, [upload_to_google_play]
    returns [False] having loaded no credentials, built no client and made
    no remote call. *)
Theorem missing_service_account_returns_false (env : Env)
    (package_name aab_path track : string) (r : Q) (release_notes : string)
    (draft : bool) (Hmissing : service_account_exists env = false) :
  run env package_name aab_path track r release_notes draft = (Ret false, init).
Proof.
  unfold run, upload_to_google_play. rewrite Hmissing. reflexivity.
Qed.

Definition missing_env : Env :=
  {| service_account_exists := false;
     credentials_reply := credentials_reply (happy_env []);
     client_reply := client_reply (happy_env []);
     aab_size_reply := aab_size_reply (happy_env []);
     insert_reply := insert_reply (happy_env []);
     chunk_replies := chunk_replies (happy_env []);
     update_reply := update_reply (happy_env []);
     commit_reply := commit_reply (happy_env []) |}.

Lemma missing_service_account_returns_false_witness :
  service_account_exists missing_env = false /\
  run missing_env "com.example.app" "app-release.aab" "production" 10
    "Bug fixes and improvements" false = (Ret false, init).
Proof.
  split.
  - reflexivity.
  - apply missing_service_account_returns_false. reflexivity.
Defined.

(** * The resumable upload loop *)

Definition chunk_event (package_name edit_id : string) (ok : bool) : event :=
  {| ev_call := CNextChunk package_name edit_id; ev_ok := ok |}.

(** C4: when chunks [1..N-1] acknowledge with a progress status and no
    response and chunk [N] with the final response [r], the loop makes
    exactly [N] [next_chunk] calls (the acknowledgements after chunk [N]
    are never requested), returns [r], and prints the [N-1] progress
    values, in order.  The final chunk carries no status object, as
    [googleapiclient]'s [next_chunk] returns [(None, body)] on completion. *)
Theorem upload_loop_final_after_progress (package_name edit_id : string)
    (ps : list Q) (r : BundleResp) (rest : list (reply chunk_ack)) (s : st) :
  upload_loop package_name edit_id
    (map (fun p => Reply (Some p, None)) ps ++ Reply (None, Some r) :: rest) s
  = (Ret r,
     {| trace := trace s ++ repeat (chunk_event package_name edit_id true)
                                   (S (List.length ps));
        shown := shown s ++ map (fun p => py_int (p * 100)) ps |}).
Proof.
  revert s. induction ps as [|p ps IH]; intro s.
  - cbn. rewrite app_nil_r. reflexivity.
  - cbn [map app upload_loop]. unfold bind at 1, perform at 1.
    cbn beta iota. unfold bind at 1, show_progress. cbn beta iota.
    rewrite IH. cbn [trace shown log]. f_equal. f_equal.
    + cbn [List.length repeat]. rewrite <- app_assoc. reflexivity.
    + cbn [map]. rewrite <- app_assoc. reflexivity.
Qed.

Definition succeeded (e : event) : Prop := ev_ok e = true.

Definition is_chunk (package_name edit_id : string) (e : event) : Prop :=
  ev_call e = CNextChunk package_name edit_id.

(** Every run of the loop appends [next_chunk] calls only; it returns
    exactly when the acknowledgements reach a final response, and a
    failing call is the last one it makes. *)
Lemma upload_loop_shape (package_name edit_id : string)
    (acks : list (reply chunk_ack)) (s : st) :
  exists evs,
    trace (snd (upload_loop package_name edit_id acks s)) = trace s ++ evs /\
    Forall (is_chunk package_name edit_id) evs /\
    first_final acks =
      match fst (upload_loop package_name edit_id acks s) with
      | Ret r => Some r
      | _ => None
      end /\
    match fst (upload_loop package_name edit_id acks s) with
    | Ret _ => evs <> [] /\ Forall succeeded evs
    | Raise _ => exists pre e, evs = pre ++ [e] /\ Forall succeeded pre /\
                               ev_ok e = false
    | NoReturn => Forall succeeded evs
    end.
Proof.
  revert s. induction acks as [|a rest IH]; intro s.
  - exists []. cbn. rewrite app_nil_r. repeat split; constructor.
  - destruct a as [[status response] | msg].
    + destruct response as [r|].
      * exists [chunk_event package_name edit_id true].
        destruct status; cbn; (repeat split);
          [constructor; [reflexivity | constructor] | discriminate
          | constructor; [reflexivity | constructor]
          | constructor; [reflexivity | constructor] | discriminate
          | constructor; [reflexivity | constructor]].
      * set (s1 := log (CNextChunk package_name edit_id) true s).
        set (s2 := match status with
                   | Some p => {| trace := trace s1;
                                  shown := shown s1 ++ [py_int (p * 100)] |}
                   | None => s1
                   end).
        assert (Hstep : upload_loop package_name edit_id
                          (@Reply chunk_ack (status, None) :: rest) s =
                        upload_loop package_name edit_id rest s2)
          by (destruct status; reflexivity).
        assert (Ht2 : trace s2 = trace s ++ [chunk_event package_name edit_id true])
          by (destruct status; reflexivity).
        rewrite Hstep. cbn [first_final].
        destruct (IH s2) as [evs [H1 [H2 [H3 H4]]]].
        exists (chunk_event package_name edit_id true :: evs).
        rewrite H1, Ht2, <- app_assoc. cbn [app].
        split; [reflexivity|]. split; [constructor; [reflexivity | exact H2]|].
        split; [exact H3|].
        destruct (fst (upload_loop package_name edit_id rest s2)) as [r0|ex|].
        -- destruct H4 as [_ H4]. split; [discriminate | constructor; [reflexivity | exact H4]].
        -- destruct H4 as [pre [e1 [He [Hpre Hk]]]].
           exists (chunk_event package_name edit_id true :: pre), e1.
           rewrite He. split; [reflexivity|]. split; [constructor; [reflexivity | exact Hpre] | exact Hk].
        -- constructor; [reflexivity | exact H4].
    + exists [chunk_event package_name edit_id false]. cbn.
      split; [reflexivity|]. split; [constructor; [reflexivity | constructor]|].
      split; [reflexivity|]. exists [], (chunk_event package_name edit_id false).
      repeat split; constructor.
Qed.

(** Only the last call of a trace may have failed. *)
Definition fail_last (l : list event) : Prop :=
  forall l1 e l2, l = l1 ++ e :: l2 -> ev_ok e = false -> l2 = [].

Lemma fail_last_all (l : list event) : Forall succeeded l -> fail_last l.
Proof.
  intros Hall l1 e l2 Hl He. subst l.
  assert (Hin : In e (l1 ++ e :: l2)) by (apply in_or_app; right; left; reflexivity).
  rewrite Forall_forall in Hall. specialize (Hall e Hin).
  unfold succeeded in Hall. congruence.
Qed.

Lemma fail_last_snoc (l : list event) (x : event) :
  Forall succeeded l -> fail_last (l ++ [x]).
Proof.
  intros Hall l1 e l2 Hl He.
  destruct l2 as [|y l2'] using rev_ind; [reflexivity|].
  exfalso. clear IHl2'.
  rewrite app_comm_cons, app_assoc in Hl.
  apply app_inj_tail in Hl as [Hl _].
  assert (Hin : In e l) by (rewrite Hl; apply in_or_app; right; left; reflexivity).
  rewrite Forall_forall in Hall. specialize (Hall e Hin).
  unfold succeeded in Hall. congruence.
Qed.

Definition is_commit_ok (e : event) : bool :=
  match ev_call e, ev_ok e with
  | CCommit _ _, true => true
  | _, _ => false
  end.

Lemma not_ends_commit (l : list event) (package_name : string) :
  Forall (fun e => is_commit_ok e = false) l ->
  ~ exists pfx edit_id,
      l = pfx ++ [{| ev_call := CCommit package_name edit_id; ev_ok := true |}].
Proof.
  intros Hall [pfx [eid Hl]]. subst l.
  apply Forall_app in Hall as [_ Hall]. inversion Hall as [|? ? Hc]. discriminate Hc.
Qed.

Lemma in_order_chunks (package_name edit_id : string) (evs : list event)
    (tail : list call) :
  Forall (is_chunk package_name edit_id) evs ->
  in_order 4 (map ev_call evs ++ tail) = in_order 4 tail.
Proof.
  induction 1 as [|e evs He _ IH]; [reflexivity|].
  cbn. unfold is_chunk in He. rewrite He. exact IH.
Qed.

Lemma in_order_after_insert (package_name edit_id : string) (evs : list event)
    (tail : list call) :
  Forall (is_chunk package_name edit_id) evs -> evs <> [] ->
  in_order 3 (map ev_call evs ++ tail) = in_order 4 tail.
Proof.
  intros Hc Hne. destruct evs as [|e evs]; [contradiction|].
  apply Forall_cons_iff in Hc as [He Hc'].
  cbn [map app in_order]. unfold is_chunk in He. rewrite He. cbn [step].
  apply (in_order_chunks package_name edit_id). exact Hc'.
Qed.

Lemma in_order_chunks_only (package_name edit_id : string) (evs : list event) :
  Forall (is_chunk package_name edit_id) evs -> in_order 3 (map ev_call evs) = true.
Proof.
  intros Hc. destruct evs as [|e evs]; [reflexivity|].
  rewrite <- (app_nil_r (map ev_call (e :: evs))).
  rewrite (in_order_after_insert package_name edit_id); [reflexivity | exact Hc | discriminate].
Qed.

Lemma chunks_not_commit (package_name edit_id : string) (evs : list event) :
  Forall (is_chunk package_name edit_id) evs ->
  Forall (fun e => is_commit_ok e = false) evs.
Proof.
  intro Hc. eapply Forall_impl; [|exact Hc].
  intros e He. unfold is_commit_ok, is_chunk in *. now rewrite He.
Qed.

Lemma chunks_succeeded_raise (evs : list event) :
  (exists pre e, evs = pre ++ [e] /\ Forall succeeded pre /\ ev_ok e = false) ->
  forall pfx, Forall succeeded pfx -> fail_last (pfx ++ evs).
Proof.
  intros [pre [e [-> [Hpre _]]]] pfx Hpfx. rewrite app_assoc.
  apply fail_last_snoc, Forall_app. split; assumption.
Qed.

Lemma fail_last_app_ok (l1 l2 : list event) :
  Forall succeeded l1 -> fail_last l2 -> fail_last (l1 ++ l2).
Proof.
  induction 1 as [|x l1 Hx _ IH]; intros H2; [exact H2|].
  intros m1 e m2 Hm He. destruct m1 as [|y m1].
  - injection Hm as -> _. unfold succeeded in Hx. congruence.
  - injection Hm as _ Hm. exact (IH H2 m1 e m2 Hm He).
Qed.

Lemma fail_last_nil : fail_last [].
Proof. intros l1 e l2 H. destruct l1; discriminate. Qed.

Lemma fail_last_one (x : event) : fail_last [x].
Proof. apply (fail_last_snoc [] x). constructor. Qed.

Ltac chunks_hyp_tac lem :=
  match goal with H : Forall (is_chunk _ _) _ |- _ => apply (lem _ _ _ H) end.

Ltac order_tac :=
  rewrite <- ?app_assoc; cbn [app map in_order step ev_call];
  rewrite ?map_app; cbn [map app in_order step ev_call];
  first [ reflexivity
        | match goal with H : Forall (is_chunk _ _) _ |- _ =>
            rewrite (in_order_after_insert _ _ _ _ H); [reflexivity | tauto] end
        | chunks_hyp_tac in_order_chunks_only ].

Ltac all_ok_tac :=
  solve [repeat (apply Forall_cons; [exact eq_refl|]); apply Forall_nil].

Ltac fail_last_tac :=
  rewrite <- ?app_assoc; cbn [app];
  repeat (apply (fail_last_app_ok [_]); [all_ok_tac|]);
  first [ apply fail_last_nil | apply fail_last_one
        | apply fail_last_snoc; all_ok_tac ].

Ltac no_commit_tac :=
  split; [intros ?; discriminate|];
  let Hx := fresh "Hx" in intro Hx; exfalso; revert Hx; apply not_ends_commit;
  rewrite <- ?app_assoc; cbn [app];
  repeat (apply Forall_cons; [reflexivity|]);
  first [ constructor
        | chunks_hyp_tac chunks_not_commit
        | apply Forall_app; split;
            [chunks_hyp_tac chunks_not_commit | repeat constructor] ].

(** C1: every run makes its calls in the fixed order credentials, client,
    open edit ([edits().insert]), one or more upload chunks, track update,
    commit (a prefix of it); a call that raised is the last call made, so
    nothing, and in particular no commit, follows a failure; and the run
    returns [True] exactly when its last call is a successful commit. *)
Theorem upload_calls_in_order_commit_last (env : Env)
    (package_name aab_path track : string) (r : Q) (release_notes : string)
    (draft : bool) :
  let '(o, s) := run env package_name aab_path track r release_notes draft in
  in_order 0 (map ev_call (trace s)) = true /\
  (forall l1 e l2, trace s = l1 ++ e :: l2 -> ev_ok e = false -> l2 = []) /\
  (o = Ret true <-> exists pfx edit_id,
      trace s = pfx ++ [{| ev_call := CCommit package_name edit_id; ev_ok := true |}]).
Proof.
  unfold run, upload_to_google_play.
  destruct (service_account_exists env); cbn [negb].
  2: { cbn. split; [reflexivity|]. split; [apply fail_last_nil|].
       split; [discriminate | intros [pfx [eid H]]; destruct pfx; discriminate]. }
  unfold try_except_false, upload_body.
  destruct (credentials_reply env) as [[]|m1]; cbn.
  2: { split; [reflexivity|]. split; [fail_last_tac|]. no_commit_tac. }
  destruct (client_reply env) as [[]|m2]; cbn.
  2: { split; [reflexivity|]. split; [fail_last_tac|]. no_commit_tac. }
  destruct (insert_reply env) as [[[eid|]]|m3]; cbn.
  3: { split; [reflexivity|]. split; [fail_last_tac|]. no_commit_tac. }
  2: { split; [reflexivity|]. split; [fail_last_tac|]. no_commit_tac. }
  destruct (aab_size_reply env) as [n|m4]; cbn.
  2: { split; [reflexivity|]. split; [fail_last_tac|]. no_commit_tac. }
  unfold bind at 1. cbn beta.
  match goal with |- context [upload_loop ?p ?e ?a ?s0] =>
    destruct (upload_loop_shape p e a s0) as [evs [H1 [H2 [H3 H4]]]];
    destruct (upload_loop p e a s0) as [[resp|ex|] s1] end;
  cbn in H1, H4 |- *.
  - destruct H4 as [Hne Hok].
    destruct (versionCode resp) as [vc|]; cbn.
    2: { rewrite H1. split; [order_tac|]. split; [|no_commit_tac].
         do 3 (apply (fail_last_app_ok [_]); [all_ok_tac|]).
         apply fail_last_all, Hok. }
    destruct (update_reply env) as [[]|m5]; cbn.
    2: { rewrite H1. split; [order_tac|]. split; [|no_commit_tac].
         cbn [app]. do 3 (apply (fail_last_app_ok [_]); [all_ok_tac|]).
         apply fail_last_snoc, Hok. }
    destruct (commit_reply env) as [[]|m6]; cbn.
    2: { rewrite H1. split; [order_tac|]. split; [|no_commit_tac].
         rewrite <- app_assoc. cbn [app].
         do 3 (apply (fail_last_app_ok [_]); [all_ok_tac|]).
         apply fail_last_app_ok; [exact Hok | fail_last_tac]. }
    split; [|split].
    + rewrite H1. order_tac.
    + rewrite H1, <- app_assoc. cbn [app].
      do 3 (apply (fail_last_app_ok [_]); [all_ok_tac|]).
      apply fail_last_all, Forall_app. split; [exact Hok | all_ok_tac].
    + split; [intros _; eexists; exists eid; reflexivity | reflexivity].
  - rewrite H1. split; [order_tac|]. split; [|no_commit_tac].
    do 3 (apply (fail_last_app_ok [_]); [all_ok_tac|]).
    destruct H4 as [pre [e [-> [Hpre _]]]]. apply fail_last_snoc, Hpre.
  - rewrite H1. split; [order_tac|]. split; [|no_commit_tac].
    do 3 (apply (fail_last_app_ok [_]); [all_ok_tac|]).
    apply fail_last_all, H4.
Qed.

Lemma submitted_configs_app (l1 l2 : list event) :
  submitted_configs (l1 ++ l2) = submitted_configs l1 ++ submitted_configs l2.
Proof. apply flat_map_app. Qed.

Lemma submitted_configs_cons (e : event) (l : list event) :
  submitted_configs (e :: l) =
  match ev_call e with CUpdate _ _ _ rs => rs | _ => [] end ++ submitted_configs l.
Proof. reflexivity. Qed.

Lemma submitted_configs_chunks (package_name edit_id : string) (evs : list event) :
  Forall (is_chunk package_name edit_id) evs -> submitted_configs evs = [].
Proof.
  induction 1 as [|e evs He _ IH]; [reflexivity|].
  cbn. unfold is_chunk in He. rewrite He. exact IH.
Qed.

(** Every release dict a run sends is the one built from the version code
    of the response that completed the upload. *)
Lemma run_submitted (env : Env) (package_name aab_path track : string) (r : Q)
    (release_notes : string) (draft : bool) (cfg : ReleaseConfig) :
  In cfg (submitted_configs
            (trace (snd (run env package_name aab_path track r release_notes draft)))) ->
  exists vc, first_final (chunk_replies env) = Some {| versionCode := Some vc |} /\
             cfg = release_config vc release_notes track r draft.
Proof.
  unfold run, upload_to_google_play.
  destruct (service_account_exists env); cbn [negb]; [|cbn; tauto].
  unfold try_except_false, upload_body.
  destruct (credentials_reply env) as [[]|m1]; cbn; [|tauto].
  destruct (client_reply env) as [[]|m2]; cbn; [|tauto].
  destruct (insert_reply env) as [[[eid|]]|m3]; cbn; [|tauto|tauto].
  destruct (aab_size_reply env) as [n|m4]; cbn; [|tauto].
  unfold bind at 1. cbn beta.
  match goal with |- context [upload_loop ?p ?e ?a ?s0] =>
    destruct (upload_loop_shape p e a s0) as [evs [H1 [H2 [H3 H4]]]];
    destruct (upload_loop p e a s0) as [[resp|ex|] s1] end;
  cbn in H1, H3, H4 |- *.
  2, 3: rewrite H1; rewrite ?submitted_configs_cons; cbn [ev_call app];
        rewrite (submitted_configs_chunks _ _ _ H2); intros [].
  destruct resp as [[vc|]]; cbn.
  2: { rewrite H1; rewrite ?submitted_configs_cons; cbn [ev_call app].
       rewrite (submitted_configs_chunks _ _ _ H2). intros []. }
  intro Hin. exists vc. split; [exact H3|].
  destruct (update_reply env) as [[]|m5]; cbn in Hin;
    [destruct (commit_reply env) as [[]|m6]; cbn in Hin|];
    rewrite ?submitted_configs_app, H1 in Hin;
    rewrite ?submitted_configs_cons in Hin; cbn [ev_call app] in Hin;
    rewrite ?submitted_configs_app, (submitted_configs_chunks _ _ _ H2) in Hin;
    cbn in Hin; intuition.
Qed.

(** C8: every release dict a run sends carries exactly one version code,
    the one of the response that completed the upload, and its release
    notes under the single locale [en-US]. *)
Theorem submitted_config_version_and_locale (env : Env)
    (package_name aab_path track : string) (r : Q) (release_notes : string)
    (draft : bool) (cfg : ReleaseConfig)
    (Hsent : In cfg (submitted_configs
               (trace (snd (run env package_name aab_path track r release_notes draft))))) :
  exists vc, first_final (chunk_replies env) = Some {| versionCode := Some vc |} /\
    versionCodes cfg = [vc] /\
    releaseNotes cfg = [{| language := "en-US"; text := release_notes |}].
Proof.
  destruct (run_submitted env package_name aab_path track r release_notes draft cfg Hsent)
    as [vc [Hvc ->]].
  exists vc. split; [exact Hvc|].
  unfold release_config. destruct draft; [split; reflexivity|].
  destruct (String.eqb track "production" && Qltb r 100); split; reflexivity.
Qed.

Definition sample_cfg : ReleaseConfig :=
  release_config 32 "Bug fixes and improvements" "beta" 100 false.

Lemma submitted_config_version_and_locale_witness :
  In sample_cfg (submitted_configs
    (trace (snd (run (happy_env []) "com.example.app" "app-release.aab" "beta" 100
                   "Bug fixes and improvements" false)))) /\
  exists vc, first_final (chunk_replies (happy_env [])) = Some {| versionCode := Some vc |} /\
    versionCodes sample_cfg = [vc] /\
    releaseNotes sample_cfg =
      [{| language := "en-US"; text := "Bug fixes and improvements" |}].
Proof.
  assert (H : In sample_cfg (submitted_configs
    (trace (snd (run (happy_env []) "com.example.app" "app-release.aab" "beta" 100
                   "Bug fixes and improvements" false)))))
    by (vm_compute; left; reflexivity).
  split; [exact H|].
  exact (submitted_config_version_and_locale (happy_env []) "com.example.app"
           "app-release.aab" "beta" 100 "Bug fixes and improvements" false sample_cfg H).
Defined.

(** C7, as the claim states it, fails: with rollout [0] on [production] the
    release dict sent has status [inProgress] and user fraction [0 / 100.0],
    which is not in the open interval (0, 1). *)
Lemma submitted_fraction_zero_counterexample :
  ~ (forall cfg f,
       In cfg (submitted_configs
         (trace (snd (run (happy_env []) "com.example.app" "app-release.aab"
                        "production" 0 "Bug fixes and improvements" false)))) ->
       userFraction cfg = Some f -> 0 < f /\ f < 1).
Proof.
  intro Hall.
  specialize (Hall (release_config 32 "Bug fixes and improvements" "production" 0 false)
                   (float_div 0 100)).
  destruct Hall as [Hpos _].
  - vm_compute. left. reflexivity.
  - reflexivity.
  - vm_compute in Hpos. discriminate Hpos.
Qed.

(** C7, amended: in every release dict a run sends, the user fraction is
    present exactly when the status is [inProgress]; when present it is
    Python's float quotient [r / 100.0] of the rollout value [r], a finite
    float (argparse [type=float]), which was below 100, so the fraction is
    below 1; it is at least 0 when [r] is, and at most 0 (possibly a zero,
    see C10) when [r] is negative; a [draft] dict never carries one. *)
Theorem submitted_config_fraction (env : Env)
    (package_name aab_path track : string) (r : Q) (release_notes : string)
    (draft : bool) (cfg : ReleaseConfig) (Hr : is_binary64 r)
    (Hsent : In cfg (submitted_configs
               (trace (snd (run env package_name aab_path track r release_notes draft))))) :
  (userFraction cfg <> None <-> status cfg = Some "inProgress") /\
  (forall f, userFraction cfg = Some f ->
     f = float_div r 100 /\ r < 100 /\ f < 1 /\ (0 <= r -> 0 <= f) /\ (r < 0 -> f <= 0)) /\
  (status cfg = Some "draft" -> userFraction cfg = None).
Proof.
  destruct (run_submitted env package_name aab_path track r release_notes draft cfg Hsent)
    as [vc [_ ->]].
  unfold release_config.
  destruct draft; cbn.
  - split; [split; [intro H; contradiction | discriminate]|].
    split; [discriminate | reflexivity].
  - destruct (String.eqb track "production" && Qltb r 100) eqn:E; cbn.
    + apply andb_true_iff in E as [_ E]. apply Qltb_spec in E.
      split; [split; [reflexivity | discriminate]|].
      split; [|discriminate].
      intros f Hf. injection Hf as <-.
      split; [reflexivity|]. split; [exact E|].
      split; [apply float_div_100_lt_1; assumption|].
      split; [apply float_div_100_nonneg | apply float_div_100_nonpos].
    + split; [split; [intro H; contradiction | discriminate]|].
      split; [discriminate | reflexivity].
Qed.

Definition staged_cfg : ReleaseConfig :=
  release_config 32 "Bug fixes and improvements" "production" 10 false.

Lemma submitted_config_fraction_witness :
  is_binary64 10 /\
  In staged_cfg (submitted_configs
    (trace (snd (run (happy_env []) "com.example.app" "app-release.aab" "production" 10
                   "Bug fixes and improvements" false)))) /\
  (userFraction staged_cfg <> None <-> status staged_cfg = Some "inProgress") /\
  (forall f, userFraction staged_cfg = Some f ->
     f = float_div 10 100 /\ 10 < 100 /\ f < 1 /\ (0 <= 10 -> 0 <= f) /\ (10 < 0 -> f <= 0)) /\
  (status staged_cfg = Some "draft" -> userFraction staged_cfg = None).
Proof.
  assert (Hb : is_binary64 10).
  { exists 5%Z, 1%Z. split; [reflexivity|]. split; [discriminate | reflexivity]. }
  assert (H : In staged_cfg (submitted_configs
    (trace (snd (run (happy_env []) "com.example.app" "app-release.aab" "production" 10
                   "Bug fixes and improvements" false)))))
    by (vm_compute; left; reflexivity).
  split; [exact Hb|]. split; [exact H|].
  exact (submitted_config_fraction (happy_env []) "com.example.app"
           "app-release.aab" "production" 10 "Bug fixes and improvements" false staged_cfg Hb H).
Defined.

(** C3, as the claim states it, fails: a rollout value of 150 raises no
    error; the edit is opened, the upload and the track update proceed and
    the run returns [True]. *)
Lemma rollout_150_counterexample :
  let '(o, s) := run (happy_env []) "com.example.app" "app-release.aab"
                   "production" 150 "Bug fixes and improvements" false in
  o = Ret true /\
  In {| ev_call := CInsert "com.example.app"; ev_ok := true |} (trace s) /\
  In (CUpdate "com.example.app" "edit-1" "production"
        [release_config 32 "Bug fixes and improvements" "production" 150 false])
     (map ev_call (trace s)).
Proof.
  vm_compute. split; [reflexivity|]. split.
  - right. right. left. reflexivity.
  - do 6 right. left. reflexivity.
Qed.

(** C3, amended: the rollout value is not checked.  Whatever the rollout
    value, the run has the same outcome and makes the same calls; only the
    release dict sent with the track update differs. *)
Theorem rollout_value_not_validated (env : Env)
    (package_name aab_path track : string) (r r' : Q) (release_notes : string)
    (draft : bool) :
  fst (run env package_name aab_path track r release_notes draft) =
  fst (run env package_name aab_path track r' release_notes draft) /\
  map erase_body (map ev_call
    (trace (snd (run env package_name aab_path track r release_notes draft)))) =
  map erase_body (map ev_call
    (trace (snd (run env package_name aab_path track r' release_notes draft)))).
Proof.
  unfold run, upload_to_google_play.
  destruct (service_account_exists env); cbn [negb]; [|split; reflexivity].
  unfold try_except_false, upload_body.
  destruct (credentials_reply env) as [[]|m1]; cbn; [|split; reflexivity].
  destruct (client_reply env) as [[]|m2]; cbn; [|split; reflexivity].
  destruct (insert_reply env) as [[[eid|]]|m3]; cbn; [|split; reflexivity|split; reflexivity].
  destruct (aab_size_reply env) as [n|m4]; cbn; [|split; reflexivity].
  unfold bind. cbn beta iota.
  destruct (upload_loop package_name eid (chunk_replies env) _) as [[resp|ex|] s1];
    cbn; [|split; reflexivity|split; reflexivity].
  destruct (versionCode resp) as [vc|]; cbn; [|split; reflexivity].
  destruct (update_reply env) as [[]|m5]; cbn;
    [destruct (commit_reply env) as [[]|m6]; cbn|];
    (split; [reflexivity|]); rewrite ?map_app; reflexivity.
Qed.






(** * The rest of the script *)

(** ** Package name detection *)

Definition quote_free (s : string) : bool := str_forall (fun c => negb (is_quote c)) s.

Example match_application_id_single_quotes :
  re_search match_application_id
    "android {
    defaultConfig {
        applicationId = 'com.example.app'
    }
}" = Some "com.example.app".
Proof. reflexivity. Qed.

Example match_application_id_groovy_space :
  re_search match_application_id "applicationId 'com.example.app'" = None.
Proof. reflexivity. Qed.

Example match_package_manifest :
  re_search match_package
    ("<manifest package=" ++ String dq ("com.example.app" ++ String dq ">"))%string
  = Some "com.example.app".
Proof. reflexivity. Qed.

Lemma re_search_some (m : string -> option string) (s g : string) :
  re_search m s = Some g -> exists pre t, s = (pre ++ t)%string /\ m t = Some g.
Proof.
  induction s as [|c s IH]; cbn.
  - destruct (m "") eqn:E; [|discriminate]. intro H. injection H as <-.
    exists "", ""; split; [reflexivity | exact E].
  - destruct (m (String c s)) eqn:E.
    + intro H. injection H as <-. exists "", (String c s). split; [reflexivity | exact E].
    + intro H. destruct (IH H) as [pre [t [-> Ht]]].
      exists (String c pre), t. split; [reflexivity | exact Ht].
Qed.

Lemma re_search_here (m : string -> option string) (s g : string) :
  m s = Some g -> re_search m s = Some g.
Proof. intro H. destruct s; cbn; rewrite H; reflexivity. Qed.

Lemma str_forall_app (p : ascii -> bool) (a b : string) :
  str_forall p (a ++ b) = str_forall p a && str_forall p b.
Proof.
  induction a as [|c a IH]; cbn; [reflexivity|]. rewrite IH. apply andb_assoc.
Qed.

Lemma span_not_fst_forall (stop : ascii -> bool) (s : string) :
  str_forall (fun c => negb (stop c)) (fst (span_not stop s)) = true.
Proof.
  induction s as [|c s IH]; cbn; [reflexivity|].
  destruct (stop c) eqn:E; [reflexivity|].
  destruct (span_not stop s) as [g r]. cbn in *. rewrite E, IH. reflexivity.
Qed.

Lemma span_not_app (stop : ascii -> bool) (g : string) (q : ascii) (rest : string) :
  str_forall (fun c => negb (stop c)) g = true -> stop q = true ->
  span_not stop (g ++ String q rest) = (g, String q rest).
Proof.
  intros Hg Hq. induction g as [|c g IH]; cbn.
  - rewrite Hq. reflexivity.
  - cbn in Hg. apply andb_true_iff in Hg as [Hc Hg].
    destruct (stop c); [discriminate|]. rewrite (IH Hg). reflexivity.
Qed.

Lemma strip_prefix_app (p t : string) : strip_prefix p (p ++ t) = Some t.
Proof.
  induction p as [|a p IH]; cbn; [reflexivity|]. rewrite Ascii.eqb_refl. exact IH.
Qed.

Lemma skip_space_app (ws : string) (c : ascii) (t : string) :
  str_forall is_py_space ws = true -> is_py_space c = false ->
  skip_space (ws ++ String c t) = String c t.
Proof.
  intros Hws Hc. induction ws as [|a ws IH]; cbn.
  - rewrite Hc. reflexivity.
  - cbn in Hws. apply andb_true_iff in Hws as [Ha Hws]. rewrite Ha. exact (IH Hws).
Qed.

Lemma quote_not_space (q : ascii) : is_quote q = true -> is_py_space q = false.
Proof.
  unfold is_quote. intro H. apply orb_true_iff in H as [H|H];
    apply Ascii.eqb_eq in H; subst; reflexivity.
Qed.

Lemma application_id_found_sound_aux (content g : string) :
  re_search match_application_id content = Some g -> g <> "" /\ quote_free g = true.
Proof.
  intro Hfound.
  destruct (re_search_some _ _ _ Hfound) as [pre [t [_ Ht]]].
  unfold match_application_id in Ht.
  destruct (strip_prefix "applicationId" t) as [s0|]; [|discriminate].
  destruct (skip_space s0) as [|c s1]; [discriminate|].
  destruct (Ascii.eqb c "=" || Ascii.eqb c ":"); [|discriminate].
  destruct (skip_space s1) as [|q s2]; [discriminate|].
  destruct (is_quote q); [|discriminate].
  pose proof (span_not_fst_forall is_quote s2) as Hf.
  destruct (span_not is_quote s2) as [[|g0 g'] [|q' r]]; try discriminate.
  injection Ht as <-. split; [discriminate | exact Hf].
Qed.

(** Group 1 of the [applicationId] pattern is never empty and holds no
    quote character; neither does what [re.search] returns with it. *)
Theorem application_id_found_is_quote_free (content g : string)
    (Hfound : re_search match_application_id content = Some g) :
  g <> "" /\ quote_free g = true.
Proof. exact (application_id_found_sound_aux content g Hfound). Qed.

Lemma application_id_found_is_quote_free_witness :
  re_search match_application_id "applicationId: 'com.example.app'" = Some "com.example.app" /\
  "com.example.app" <> "" /\ quote_free "com.example.app" = true.
Proof.
  split; [reflexivity|].
  apply (application_id_found_is_quote_free "applicationId: 'com.example.app'").
  reflexivity.
Defined.

(** Whatever the spaces around the [=] or [:] and whichever quotes delimit
    it, a line [applicationId = 'id'] at the start of the file gives back
    the identifier [id] when it is non-empty and quote-free. *)
Theorem application_id_roundtrip (ws1 ws2 id rest : string) (sep q1 q2 : ascii)
    (Hws1 : str_forall is_py_space ws1 = true)
    (Hws2 : str_forall is_py_space ws2 = true)
    (Hsep : sep = "="%char \/ sep = ":"%char)
    (Hq1 : is_quote q1 = true) (Hq2 : is_quote q2 = true)
    (Hid : id <> "") (Hidq : quote_free id = true) :
  re_search match_application_id
    ("applicationId" ++ ws1 ++ String sep (ws2 ++ String q1 (id ++ String q2 rest)))%string
  = Some id.
Proof.
  apply re_search_here. unfold match_application_id.
  rewrite strip_prefix_app.
  rewrite skip_space_app; [|exact Hws1 | destruct Hsep as [-> | ->]; reflexivity].
  assert (Hs : (Ascii.eqb sep "=" || Ascii.eqb sep ":")%bool = true)
    by (destruct Hsep as [-> | ->]; reflexivity).
  rewrite Hs.
  rewrite skip_space_app; [|exact Hws2 | apply quote_not_space, Hq1].
  rewrite Hq1.
  rewrite (span_not_app is_quote id q2 rest Hidq Hq2).
  destruct id as [|c id']; [contradiction | reflexivity].
Qed.

Lemma application_id_roundtrip_witness :
  (str_forall is_py_space " " = true /\ str_forall is_py_space "" = true /\
   ("="%char = "="%char \/ "="%char = ":"%char) /\
   is_quote sq = true /\ is_quote sq = true /\
   "com.example.app" <> "" /\ quote_free "com.example.app" = true) /\
  re_search match_application_id
    ("applicationId" ++ " " ++ String "=" ("" ++ String sq ("com.example.app" ++ String sq "")))%string
  = Some "com.example.app".
Proof.
  split.
  - repeat split; try reflexivity; [left; reflexivity | discriminate].
  - apply application_id_roundtrip; try reflexivity; [left; reflexivity | discriminate].
Defined.

Definition no_assign_sep (s : string) : bool :=
  str_forall (fun c => negb (Ascii.eqb c "=" || Ascii.eqb c ":")) s.

Lemma strip_prefix_some (p s t : string) : strip_prefix p s = Some t -> s = (p ++ t)%string.
Proof.
  revert s. induction p as [|a p IH]; intros s H; cbn in *.
  - injection H as <-. reflexivity.
  - destruct s as [|b s]; [discriminate|].
    destruct (Ascii.eqb a b) eqn:E; [|discriminate].
    apply Ascii.eqb_eq in E. subst b. rewrite (IH s H). reflexivity.
Qed.

Lemma skip_space_split (s : string) : exists ws, s = (ws ++ skip_space s)%string.
Proof.
  induction s as [|c s [ws IH]]; cbn.
  - exists "". reflexivity.
  - destruct (is_py_space c).
    + exists (String c ws). cbn. rewrite <- IH. reflexivity.
    + exists "". reflexivity.
Qed.

Lemma match_application_id_has_sep (t g : string) :
  match_application_id t = Some g -> no_assign_sep t = false.
Proof.
  unfold match_application_id, no_assign_sep.
  destruct (strip_prefix "applicationId" t) as [s0|] eqn:E0; [|discriminate].
  apply strip_prefix_some in E0. subst t.
  destruct (skip_space_split s0) as [ws Hws].
  destruct (skip_space s0) as [|c s1]; [discriminate|].
  destruct (Ascii.eqb c "=" || Ascii.eqb c ":") eqn:Ec; [|discriminate].
  intros _. rewrite Hws, !str_forall_app. cbn [str_forall]. rewrite Ec.
  cbn [negb andb]. rewrite !andb_false_r. reflexivity.
Qed.

Lemma search_application_id_needs_sep (content : string) :
  no_assign_sep content = true -> re_search match_application_id content = None.
Proof.
  intro H. destruct (re_search match_application_id content) as [g|] eqn:E; [|reflexivity].
  destruct (re_search_some _ _ _ E) as [pre [t [-> Ht]]].
  apply match_application_id_has_sep in Ht.
  unfold no_assign_sep in *. rewrite str_forall_app, Ht, andb_false_r in H. discriminate.
Qed.

(** A build file holding no [=] and no [:] yields no [applicationId]: the
    Groovy form [applicationId 'com.example.app'], without a separator, is
    not recognised. *)
Theorem no_separator_no_application_id (content : string)
    (Hnosep : no_assign_sep content = true) :
  re_search match_application_id content = None.
Proof. exact (search_application_id_needs_sep content Hnosep). Qed.

Lemma no_separator_no_application_id_witness :
  no_assign_sep "defaultConfig { applicationId 'com.example.app' }" = true /\
  re_search match_application_id "defaultConfig { applicationId 'com.example.app' }" = None.
Proof. split; [reflexivity | apply no_separator_no_application_id; reflexivity]. Defined.

Lemma str_forall_ext (f h : ascii -> bool) (s : string) :
  (forall c, f c = h c) -> str_forall f s = str_forall h s.
Proof.
  intro E. induction s as [|c s IH]; cbn [str_forall]; [reflexivity|].
  rewrite E, IH. reflexivity.
Qed.

Definition dq_free (s : string) : bool := str_forall (fun c => negb (Ascii.eqb c dq)) s.

(** A manifest attribute [package=D id D] (with [D] the double quote) gives
    back [id] when it is non-empty and holds no double quote. *)
Theorem manifest_package_roundtrip (id rest : string)
    (Hid : id <> "") (Hidq : dq_free id = true) :
  re_search match_package ("package=" ++ String dq (id ++ String dq rest))%string = Some id.
Proof.
  apply re_search_here. unfold match_package.
  change ("package=" ++ String dq (id ++ String dq rest))%string
    with ((("package=" ++ String dq EmptyString) ++ (id ++ String dq rest)))%string.
  rewrite strip_prefix_app.
  rewrite (span_not_app (Ascii.eqb dq) id dq rest).
  - destruct id as [|c id']; [contradiction | reflexivity].
  - unfold dq_free in Hidq. clear Hid. induction id as [|c id IH]; [reflexivity|].
    cbn [str_forall] in *. apply andb_true_iff in Hidq as [Hc Hr].
    rewrite Ascii.eqb_sym, Hc. exact (IH Hr).
  - apply Ascii.eqb_refl.
Qed.

Lemma manifest_package_roundtrip_witness :
  ("com.example.app" <> "" /\ dq_free "com.example.app" = true) /\
  re_search match_package ("package=" ++ String dq ("com.example.app" ++ String dq " />"))%string
  = Some "com.example.app".
Proof.
  split; [split; [discriminate | reflexivity]|].
  apply manifest_package_roundtrip; [discriminate | reflexivity].
Defined.

Lemma quote_free_dq_free (s : string) : quote_free s = true -> dq_free s = true.
Proof.
  unfold quote_free, dq_free, is_quote. induction s as [|c s IH]; cbn [str_forall]; [reflexivity|].
  intro H. apply andb_true_iff in H as [Hc Hs].
  rewrite (IH Hs), andb_true_r. destruct (Ascii.eqb c dq); [discriminate | reflexivity].
Qed.

Lemma package_found_sound (content g : string) :
  re_search match_package content = Some g -> g <> "" /\ dq_free g = true.
Proof.
  intro Hfound. destruct (re_search_some _ _ _ Hfound) as [pre [t [_ Ht]]].
  unfold match_package in Ht.
  destruct (strip_prefix _ t) as [s0|]; [|discriminate].
  pose proof (span_not_fst_forall (Ascii.eqb dq) s0) as Hf.
  destruct (span_not (Ascii.eqb dq) s0) as [[|g0 g'] [|q' r]]; try discriminate.
  injection Ht as <-. split; [discriminate|].
  unfold dq_free. rewrite <- Hf. apply str_forall_ext.
  intro c. rewrite Ascii.eqb_sym. reflexivity.
Qed.

Lemma search_file_found (fs : FS) (path : string) (m : string -> option string)
    (k : reply (option string)) (p : string) :
  search_file fs path m k = Reply (Some p) ->
  (exists content, re_search m content = Some p) \/ k = Reply (Some p).
Proof.
  unfold search_file. destruct (fs_read fs path) as [[content|msg]|]; [|discriminate|tauto].
  destruct (re_search m content) as [g|] eqn:E; [|tauto].
  intro H. injection H as <-. left. exists content. exact E.
Qed.

(** A package name [get_package_name] detects is never empty and holds no
    double quote, whichever file it comes from. *)
Theorem get_package_name_sound (fs : FS) (project_path p : string)
    (Hfound : get_package_name fs project_path = Reply (Some p)) :
  p <> "" /\ dq_free p = true.
Proof.
  unfold get_package_name in Hfound.
  destruct (search_file_found _ _ _ _ _ Hfound) as [[c Hc] | Hk].
  { destruct (application_id_found_sound_aux c p Hc) as [Hne Hq].
    split; [exact Hne | apply quote_free_dq_free, Hq]. }
  destruct (search_file_found _ _ _ _ _ Hk) as [[c Hc] | Hk2].
  { destruct (application_id_found_sound_aux c p Hc) as [Hne Hq].
    split; [exact Hne | apply quote_free_dq_free, Hq]. }
  destruct (search_file_found _ _ _ _ _ Hk2) as [[c Hc] | Hk3].
  - exact (package_found_sound c p Hc).
  - discriminate Hk3.
Qed.

(** A sample project: a Kotlin build file, a manifest, and a bundle
    directory with two bundles, a hidden file and a mapping file. *)
Definition sample_fs : FS := {|
  fs_read := fun p =>
    if String.eqb p "/proj/android/app/build.gradle.kts"
    then Some (Reply "android { defaultConfig { applicationId = 'com.example.app' } }")
    else if String.eqb p "/proj/android/app/src/main/AndroidManifest.xml"
    then Some (Reply ("<manifest package=" ++ String dq ("com.example.old" ++ String dq ">"))%string)
    else None;
  fs_list := fun d =>
    if String.eqb d "/proj/build/app/outputs/bundle/release"
    then ["app-release.aab"; ".partial.aab"; "app-old.aab"; "mapping.txt"; "app-copy.aab"]
    else [];
  fs_mtime := fun p =>
    if String.eqb p "/proj/build/app/outputs/bundle/release/app-release.aab" then Reply 20
    else if String.eqb p "/proj/build/app/outputs/bundle/release/app-old.aab" then Reply 10
    else if String.eqb p "/proj/build/app/outputs/bundle/release/app-copy.aab" then Reply 20
    else if String.eqb p "/proj/build/app/outputs/bundle/release/.partial.aab" then Reply 30
    else Fail "No such file or directory";
  fs_abspath := fun p => if String.eqb p "." then "/proj" else p;
  fs_glob := fun _ => [] |}.

Lemma get_package_name_sound_witness :
  get_package_name sample_fs "/proj" = Reply (Some "com.example.app") /\
  ("com.example.app" <> "" /\ dq_free "com.example.app" = true).
Proof.
  split; [reflexivity|].
  apply (get_package_name_sound sample_fs "/proj"). reflexivity.
Defined.

(** A Groovy [build.gradle] with no [=] or [:] (so [applicationId] in its
    Groovy form, [applicationId 'x']) never yields the package: when no
    [build.gradle.kts] exists, detection falls through to the manifest. *)
Theorem groovy_gradle_falls_back_to_manifest (fs : FS) (project_path content : string)
    (Hgradle : fs_read fs (path_join project_path "android/app/build.gradle")
               = Some (Reply content))
    (Hnosep : no_assign_sep content = true)
    (Hkts : fs_read fs (path_join project_path "android/app/build.gradle.kts") = None) :
  get_package_name fs project_path =
  search_file fs (path_join project_path "android/app/src/main/AndroidManifest.xml")
    match_package (Reply None).
Proof.
  unfold get_package_name at 1. unfold search_file at 1 2.
  rewrite Hgradle, (search_application_id_needs_sep content Hnosep), Hkts.
  reflexivity.
Qed.

Definition groovy_fs : FS := {|
  fs_read := fun p =>
    if String.eqb p "/proj/android/app/build.gradle"
    then Some (Reply "android { defaultConfig { applicationId 'com.example.groovy' } }")
    else if String.eqb p "/proj/android/app/build.gradle.kts" then None
    else fs_read sample_fs p;
  fs_list := fs_list sample_fs;
  fs_mtime := fs_mtime sample_fs;
  fs_abspath := fs_abspath sample_fs;
  fs_glob := fs_glob sample_fs |}.

Lemma groovy_gradle_falls_back_to_manifest_witness :
  get_package_name groovy_fs "/proj" = Reply (Some "com.example.old").
Proof.
  rewrite (groovy_gradle_falls_back_to_manifest groovy_fs "/proj"
             "android { defaultConfig { applicationId 'com.example.groovy' } }");
    reflexivity.
Defined.

(** [max(key=...)] picks an item of the list whose key is maximal and
    strictly above the key of every item before it. *)
Lemma py_max_by_spec (key : string -> reply Q) (b : string) (kb : Q) (l : list string)
    (m : string) :
  key b = Reply kb -> py_max_by key b kb l = Reply m ->
  exists km pre post,
    key m = Reply km /\ b :: l = pre ++ m :: post /\
    Forall (fun y => exists ky, key y = Reply ky /\ ky < km) pre /\
    Forall (fun y => exists ky, key y = Reply ky /\ ky <= km) (b :: l).
Proof.
  revert b kb. induction l as [|x l IH]; intros b kb Hb Hm.
  - cbn in Hm. injection Hm as <-.
    exists kb, [], []. split; [exact Hb|]. split; [reflexivity|].
    split; [constructor|]. constructor; [|constructor].
    exists kb. split; [exact Hb | apply Qle_refl].
  - cbn [py_max_by] in Hm. destruct (key x) as [kx|msg] eqn:Hx; [|discriminate Hm].
    destruct (Qltb kb kx) eqn:E.
    + apply Qltb_spec in E.
      destruct (IH x kx Hx Hm) as [km [pre [post [Hkm [Hl [Hpre Hall]]]]]].
      apply Forall_cons_iff in Hall as [[kx' [Hx' Hxm]] Hlm].
      rewrite Hx in Hx'. injection Hx' as <-.
      exists km, (b :: pre), post. split; [exact Hkm|].
      split; [rewrite Hl; reflexivity|]. split.
      * constructor; [|exact Hpre].
        exists kb. split; [exact Hb | apply (Qlt_le_trans _ kx); assumption].
      * constructor; [|constructor; [|exact Hlm]].
        -- exists kb. split; [exact Hb|]. apply Qlt_le_weak, (Qlt_le_trans _ kx); assumption.
        -- exists kx. split; [exact Hx | exact Hxm].
    + assert (Exb : kx <= kb)
        by (apply Qnot_lt_le; intro H; apply Qltb_spec in H; congruence).
      destruct (IH b kb Hb Hm) as [km [pre [post [Hkm [Hl [Hpre Hall]]]]]].
      apply Forall_cons_iff in Hall as [[kb' [Hb' Hbm]] Hlm].
      rewrite Hb in Hb'. injection Hb' as <-.
      exists km. destruct pre as [|b' pre]; cbn in Hl.
      * injection Hl as Hbm' Hpost. subst post.
        exists [], (x :: l). split; [exact Hkm|]. cbn. rewrite <- Hbm'.
        split; [reflexivity|]. split; [constructor|].
        constructor; [exists kb; split; [exact Hb | exact Hbm]|].
        constructor; [|exact Hlm].
        exists kx. split; [exact Hx | apply (Qle_trans _ kb); assumption].
      * injection Hl as Hb2 Hl. subst b'.
        apply Forall_cons_iff in Hpre as [[kb' [Hb' Hbm2]] Hpre'].
        rewrite Hb in Hb'. injection Hb' as <-.
        exists (b :: x :: pre), post. split; [exact Hkm|].
        split; [rewrite Hl; reflexivity|]. split.
        -- constructor; [exists kb; split; [exact Hb | exact Hbm2]|].
           constructor; [|exact Hpre'].
           exists kx. split; [exact Hx | apply (Qle_lt_trans _ kb); assumption].
        -- constructor; [exists kb; split; [exact Hb | exact Hbm]|].
           constructor; [|exact Hlm].
           exists kx. split; [exact Hx | apply (Qle_trans _ kb); assumption].
Qed.



(** For a project path without glob wildcards, the bundle [find_aab_file]
    returns is one of the [*.aab] names of the bundle directory (hidden
    names excluded) with the latest modification time; of several with
    that time, the first in listing order. *)
Theorem find_aab_file_newest (fs : FS) (project_path p : string)
    (Hmagic : glob_magic_free project_path = true)
    (Hfound : find_aab_file fs project_path = Reply (Some p)) :
  let dir := aab_dir project_path in
  let names := filter glob_aab_name (fs_list fs dir) in
  exists pre name post t,
    names = pre ++ name :: post /\ p = path_join dir name /\
    glob_aab_name name = true /\ fs_mtime fs p = Reply t /\
    Forall (fun n => exists t', fs_mtime fs (path_join dir n) = Reply t' /\ t' < t) pre /\
    Forall (fun n => exists t', fs_mtime fs (path_join dir n) = Reply t' /\ t' <= t) names.
Proof.
  cbn zeta. unfold find_aab_file, aab_candidates in Hfound. rewrite Hmagic in Hfound.
  set (dir := aab_dir project_path) in *.
  set (names := filter glob_aab_name (fs_list fs dir)) in *.
  destruct names as [|n0 ns] eqn:En; [discriminate|].
  cbn [map] in Hfound.
  destruct (fs_mtime fs (path_join dir n0)) as [k0|m] eqn:H0; [|discriminate].
  destruct (py_max_by (fs_mtime fs) (path_join dir n0) k0 (map (path_join dir) ns))
    as [m|m] eqn:Hm; [|discriminate].
  injection Hfound as ->.
  destruct (py_max_by_spec _ _ _ _ _ H0 Hm) as [t [pre [post [Ht [Hl [Hpre Hall]]]]]].
  change (path_join dir n0 :: map (path_join dir) ns) with (map (path_join dir) (n0 :: ns)) in Hl, Hall.
  apply map_eq_app in Hl as [N1 [N2 [HN [HN1 HN2]]]].
  apply map_eq_cons in HN2 as [name [N3 [HN2 [Hname HN3]]]]. subst N2.
  exists N1, name, N3, t. split; [exact HN|]. split; [symmetry; exact Hname|].
  split.
  - assert (Hin : In name (n0 :: ns)) by (rewrite HN; apply in_or_app; right; left; reflexivity).
    rewrite <- En in Hin. apply filter_In in Hin. exact (proj2 Hin).
  - split; [exact Ht|]. split.
    + subst pre. rewrite Forall_map in Hpre. exact Hpre.
    + rewrite Forall_map in Hall. exact Hall.
Qed.

Lemma find_aab_file_newest_witness :
  glob_magic_free "/proj" = true /\
  find_aab_file sample_fs "/proj" =
    Reply (Some "/proj/build/app/outputs/bundle/release/app-release.aab") /\
  exists pre name post t,
    filter glob_aab_name (fs_list sample_fs (aab_dir "/proj")) = pre ++ name :: post /\
    "/proj/build/app/outputs/bundle/release/app-release.aab" = path_join (aab_dir "/proj") name /\
    glob_aab_name name = true /\
    fs_mtime sample_fs "/proj/build/app/outputs/bundle/release/app-release.aab" = Reply t /\
    Forall (fun n => exists t', fs_mtime sample_fs (path_join (aab_dir "/proj") n) = Reply t' /\
                     t' < t) pre /\
    Forall (fun n => exists t', fs_mtime sample_fs (path_join (aab_dir "/proj") n) = Reply t' /\
                     t' <= t)
      (filter glob_aab_name (fs_list sample_fs (aab_dir "/proj"))).
Proof.
  split; [reflexivity|]. split; [reflexivity|].
  exact (find_aab_file_newest sample_fs "/proj" _ eq_refl eq_refl).
Defined.

(** * Runs of [upload_to_google_play] *)



(** The calls that touch the release: the track update and the commit. *)
Definition touches_release (e : event) : bool :=
  match ev_call e with
  | CUpdate _ _ _ _ | CCommit _ _ => true
  | _ => false
  end.

Lemma chunks_no_release (package_name edit_id : string) (evs : list event) :
  Forall (is_chunk package_name edit_id) evs ->
  Forall (fun e => touches_release e = false) evs.
Proof.
  intro Hc. eapply Forall_impl; [|exact Hc].
  intros e He. unfold touches_release, is_chunk in *. now rewrite He.
Qed.

(** When the upload completes with a response lacking ['versionCode'],
    [response['versionCode']] raises: the run returns [False] and the
    track is never updated, nor the edit committed. *)
Theorem missing_version_code_no_release (env : Env)
    (package_name aab_path track : string) (r : Q) (release_notes : string)
    (draft : bool)
    (Hfinal : first_final (chunk_replies env) = Some {| versionCode := None |}) :
  let '(o, s) := run env package_name aab_path track r release_notes draft in
  o = Ret false /\ Forall (fun e => touches_release e = false) (trace s).
Proof.
  unfold run, upload_to_google_play.
  destruct (service_account_exists env); cbn [negb].
  2: { cbn. split; [reflexivity | constructor]. }
  unfold try_except_false, upload_body.
  destruct (credentials_reply env) as [[]|m1]; cbn.
  2: { split; [reflexivity | repeat constructor]. }
  destruct (client_reply env) as [[]|m2]; cbn.
  2: { split; [reflexivity | repeat constructor]. }
  destruct (insert_reply env) as [[[eid|]]|m3]; cbn.
  3: { split; [reflexivity | repeat constructor]. }
  2: { split; [reflexivity | repeat constructor]. }
  destruct (aab_size_reply env) as [n|m4]; cbn.
  2: { split; [reflexivity | repeat constructor]. }
  unfold bind at 1. cbn beta.
  match goal with |- context [upload_loop ?p ?e ?a ?s0] =>
    destruct (upload_loop_shape p e a s0) as [evs [H1 [H2 [H3 H4]]]];
    destruct (upload_loop p e a s0) as [[resp|ex|] s1] end;
  cbn in H1, H3 |- *; rewrite Hfinal in H3; try discriminate H3.
  injection H3 as <-. cbn.
  split; [reflexivity|]. rewrite H1. cbn [app].
  repeat (apply Forall_cons; [reflexivity|]).
  exact (chunks_no_release _ _ _ H2).
Qed.

Definition no_version_env : Env := {|
  service_account_exists := true;
  credentials_reply := Reply tt;
  client_reply := Reply tt;
  aab_size_reply := Reply 47185920%Z;
  insert_reply := Reply {| resp_id := Some "edit-1" |};
  chunk_replies := [Reply (Some (1 # 2), None); Reply (None, Some {| versionCode := None |})];
  update_reply := Reply tt;
  commit_reply := Reply tt |}.

Lemma missing_version_code_no_release_witness :
  first_final (chunk_replies no_version_env) = Some {| versionCode := None |} /\
  let '(o, s) := run no_version_env "com.example.app" "app-release.aab" "production"
                   100 "Bug fixes and improvements" false in
  o = Ret false /\ Forall (fun e => touches_release e = false) (trace s).
Proof.
  split; [reflexivity|].
  apply missing_version_code_no_release. reflexivity.
Defined.

(** When the edit returned by [edits().insert] has no ['id'], [edit['id']]
    raises: the run returns [False] and its calls are at most the
    credentials, the client and the insert, so nothing is uploaded. *)
Theorem missing_edit_id_nothing_uploaded (env : Env)
    (package_name aab_path track : string) (r : Q) (release_notes : string)
    (draft : bool)
    (Hid : insert_reply env = Reply {| resp_id := None |}) :
  let '(o, s) := run env package_name aab_path track r release_notes draft in
  o = Ret false /\
  exists n, map ev_call (trace s) =
            firstn n [CLoadCredentials; CBuildClient; CInsert package_name].
Proof.
  unfold run, upload_to_google_play.
  destruct (service_account_exists env); cbn [negb].
  2: { cbn. split; [reflexivity|]. exists 0%nat. reflexivity. }
  unfold try_except_false, upload_body.
  destruct (credentials_reply env) as [[]|m1]; cbn.
  2: { split; [reflexivity|]. exists 1%nat. reflexivity. }
  destruct (client_reply env) as [[]|m2]; cbn.
  2: { split; [reflexivity|]. exists 2%nat. reflexivity. }
  rewrite Hid. cbn. split; [reflexivity|]. exists 3%nat. reflexivity.
Qed.

Definition no_id_env : Env := {|
  service_account_exists := true;
  credentials_reply := Reply tt;
  client_reply := Reply tt;
  aab_size_reply := Reply 47185920%Z;
  insert_reply := Reply {| resp_id := None |};
  chunk_replies := [Reply (None, Some {| versionCode := Some 32%Z |})];
  update_reply := Reply tt;
  commit_reply := Reply tt |}.

Lemma missing_edit_id_nothing_uploaded_witness :
  insert_reply no_id_env = Reply {| resp_id := None |} /\
  let '(o, s) := run no_id_env "com.example.app" "app-release.aab" "production"
                   100 "Bug fixes and improvements" false in
  o = Ret false /\
  exists n, map ev_call (trace s) =
            firstn n [CLoadCredentials; CBuildClient; CInsert "com.example.app"].
Proof.
  split; [reflexivity|].
  apply missing_edit_id_nothing_uploaded. reflexivity.
Defined.

(** ** The printed progress *)

Lemma py_int_percent_range (p : Q) :
  0 <= p <= 1 -> (0 <= py_int (p * 100) <= 100)%Z.
Proof.
  intros [H0 H1].
  assert (Hq0 : 0 <= p * 100)
    by (rewrite <- (Qmult_0_l 100); apply Qmult_le_compat_r; [exact H0 | discriminate]).
  assert (Hq1 : p * 100 <= 100)
    by (rewrite <- (Qmult_1_l 100) at 2; apply Qmult_le_compat_r; [exact H1 | discriminate]).
  unfold py_int. apply Qle_bool_iff in Hq0 as Hb. rewrite Hb.
  apply Qle_bool_iff in Hb. split.
  - change 0%Z with (Qfloor 0). apply Qfloor_resp_le. exact Hb.
  - rewrite Zle_Qle. eapply Qle_trans; [apply Qfloor_le | exact Hq1].
Qed.

(** [status.progress()] within [0, 1]. *)
Definition progress_ok (a : reply chunk_ack) : Prop :=
  match a with
  | Reply (Some p, _) => 0 <= p <= 1
  | _ => True
  end.

Lemma upload_loop_shown (package_name edit_id : string) (acks : list (reply chunk_ack))
    (s : st) :
  Forall progress_ok acks -> Forall (fun z => (0 <= z <= 100)%Z) (shown s) ->
  Forall (fun z => (0 <= z <= 100)%Z)
    (shown (snd (upload_loop package_name edit_id acks s))).
Proof.
  intros Hacks. revert s. induction Hacks as [|a rest Ha _ IH]; intros s Hs; [exact Hs|].
  destruct a as [[status response] | msg]; [|exact Hs].
  cbn [upload_loop]. unfold bind at 1, perform at 1. cbn beta iota.
  destruct status as [p|].
  - unfold bind at 1, show_progress. cbn beta iota.
    assert (Hs' : Forall (fun z => (0 <= z <= 100)%Z)
                    (shown (log (CNextChunk package_name edit_id) true s) ++
                     [py_int (p * 100)])).
    { apply Forall_app. split; [exact Hs|]. constructor; [|constructor].
      apply py_int_percent_range. exact Ha. }
    destruct response as [r|]; [exact Hs'|]. apply IH. exact Hs'.
  - unfold bind at 1, ret. cbn beta iota.
    destruct response as [r|]; [exact Hs|]. apply IH. exact Hs.
Qed.

(** When every [status.progress()] the service reports lies in [0, 1],
    every percentage the upload prints lies in [0, 100]. *)
Theorem printed_progress_in_range (env : Env)
    (package_name aab_path track : string) (r : Q) (release_notes : string)
    (draft : bool) (Hprogress : Forall progress_ok (chunk_replies env)) :
  Forall (fun z => (0 <= z <= 100)%Z)
    (shown (snd (run env package_name aab_path track r release_notes draft))).
Proof.
  unfold run, upload_to_google_play.
  destruct (service_account_exists env); cbn [negb]; [|cbn; constructor].
  unfold try_except_false, upload_body.
  destruct (credentials_reply env) as [[]|m1]; cbn; [|constructor].
  destruct (client_reply env) as [[]|m2]; cbn; [|constructor].
  destruct (insert_reply env) as [[[eid|]]|m3]; cbn; [|constructor|constructor].
  destruct (aab_size_reply env) as [n|m4]; cbn; [|constructor].
  unfold bind at 1. cbn beta.
  match goal with |- context [upload_loop ?p ?e ?a ?s0] =>
    pose proof (upload_loop_shown p e a s0 Hprogress (Forall_nil _)) as Hsh;
    destruct (upload_loop p e a s0) as [[resp|ex|] s1] end;
  cbn in Hsh |- *; [|exact Hsh|exact Hsh].
  destruct (versionCode resp) as [vc|]; cbn; [|exact Hsh].
  destruct (update_reply env) as [[]|m5]; cbn; [|exact Hsh].
  destruct (commit_reply env) as [[]|m6]; cbn; exact Hsh.
Qed.

Lemma printed_progress_in_range_witness :
  Forall progress_ok (chunk_replies (happy_env [])) /\
  Forall (fun z => (0 <= z <= 100)%Z)
    (shown (snd (run (happy_env []) "com.example.app" "app-release.aab" "production"
                   10 "Bug fixes and improvements" false))).
Proof.
  assert (H : Forall progress_ok (chunk_replies (happy_env []))).
  { cbn. repeat constructor; cbn; unfold Qle; cbn; lia. }
  split; [exact H|]. apply printed_progress_in_range. exact H.
Defined.

(** A run that returns [True] made only successful calls, the last of them
    the commit of an edit of the package it was given. *)
Lemma run_true_committed (env : Env) (package_name aab_path track : string) (r : Q)
    (release_notes : string) (draft : bool) :
  let '(o, s) := run env package_name aab_path track r release_notes draft in
  o = Ret true ->
  Forall succeeded (trace s) /\
  exists pfx edit_id,
    trace s = pfx ++ [{| ev_call := CCommit package_name edit_id; ev_ok := true |}].
Proof.
  unfold run, upload_to_google_play.
  destruct (service_account_exists env); cbn [negb]; [|cbn; discriminate].
  unfold try_except_false, upload_body.
  destruct (credentials_reply env) as [[]|m1]; cbn; [|discriminate].
  destruct (client_reply env) as [[]|m2]; cbn; [|discriminate].
  destruct (insert_reply env) as [[[eid|]]|m3]; cbn; [|discriminate|discriminate].
  destruct (aab_size_reply env) as [n|m4]; cbn; [|discriminate].
  unfold bind at 1. cbn beta.
  match goal with |- context [upload_loop ?p ?e ?a ?s0] =>
    destruct (upload_loop_shape p e a s0) as [evs [H1 [H2 [H3 H4]]]];
    destruct (upload_loop p e a s0) as [[resp|ex|] s1] end;
  cbn in H1, H4 |- *; [|discriminate|discriminate].
  destruct H4 as [_ Hok].
  destruct (versionCode resp) as [vc|]; cbn; [|discriminate].
  destruct (update_reply env) as [[]|m5]; cbn; [|discriminate].
  destruct (commit_reply env) as [[]|m6]; cbn; [|discriminate].
  intros _. rewrite H1. split.
  - rewrite <- !app_assoc. cbn [app]. repeat (apply Forall_cons; [reflexivity|]).
    apply Forall_app. split; [exact Hok|]. repeat constructor.
  - eexists. exists eid. reflexivity.
Qed.

(** * [main] *)

Definition detection_paths (project_path : string) : list string :=
  [path_join project_path "android/app/build.gradle";
   path_join project_path "android/app/build.gradle.kts";
   path_join project_path "android/app/src/main/AndroidManifest.xml"].



Definition sample_args (override : option string) : Args := {|
  arg_version := "1.13.0+32";
  arg_project_path := ".";
  arg_track := "production";
  arg_rollout := 100;
  arg_draft := false;
  arg_release_notes := "Bug fixes and improvements";
  arg_package_name := override |}.




(** When [glob] finds no bundle, [main] makes no call to the service and
    does not exit with status 0. *)
Theorem main_no_bundle_no_call (fs : FS) (env : Env) (args : Args)
    (Hnone : aab_candidates fs (fs_abspath fs (arg_project_path args)) = []) :
  snd (main fs env args) = init /\ fst (main fs env args) <> Ret 0%Z.
Proof.
  unfold main. unfold find_aab_file. rewrite Hnone.
  destruct (resolve_package _ _ _) as [[pkg|]|msg].
  - destruct (String.eqb pkg ""); cbn; (split; [reflexivity | discriminate]).
  - cbn. split; [reflexivity | discriminate].
  - cbn. split; [reflexivity | discriminate].
Qed.

Definition unbuilt_args : Args := {|
  arg_version := "1.13.0+32";
  arg_project_path := "/elsewhere";
  arg_track := "production";
  arg_rollout := 100;
  arg_draft := false;
  arg_release_notes := "Bug fixes and improvements";
  arg_package_name := Some "com.example.app" |}.

Lemma main_no_bundle_no_call_witness :
  aab_candidates sample_fs (fs_abspath sample_fs (arg_project_path unbuilt_args)) = [] /\
  (snd (main sample_fs (happy_env []) unbuilt_args) = init /\
   fst (main sample_fs (happy_env []) unbuilt_args) <> Ret 0%Z).
Proof.
  split; [reflexivity|].
  apply main_no_bundle_no_call. reflexivity.
Defined.

(** [main] exits with status 0 only after a run whose calls all succeeded
    and whose last call committed an edit of the package it used, which is
    the [--package-name] value whenever that is given and non-empty. *)
Theorem main_exit_0_committed (fs : FS) (env : Env) (args : Args)
    (Hexit : fst (main fs env args) = Ret 0%Z) :
  let s := snd (main fs env args) in
  Forall succeeded (trace s) /\
  exists package_name pfx edit_id,
    trace s = pfx ++ [{| ev_call := CCommit package_name edit_id; ev_ok := true |}] /\
    (forall p, arg_package_name args = Some p -> p <> "" -> package_name = p).
Proof.
  cbn zeta. revert Hexit. unfold main.
  set (pp := fs_abspath fs (arg_project_path args)).
  assert (Hres : forall p pkg, arg_package_name args = Some p -> p <> "" ->
                 resolve_package fs pp (arg_package_name args) = Reply (Some pkg) -> pkg = p).
  { intros p pkg Hp Hne. rewrite Hp. unfold resolve_package.
    destruct (String.eqb p "") eqn:E; [apply String.eqb_eq in E; contradiction|].
    intro H. injection H as <-. reflexivity. }
  destruct (resolve_package fs pp (arg_package_name args)) as [[pkg|]|msg] eqn:Er;
    [|discriminate|discriminate].
  destruct (String.eqb pkg ""); [discriminate|].
  destruct (find_aab_file fs pp) as [[aab|]|msg]; [|discriminate|discriminate].
  pose proof (run_true_committed env pkg aab (arg_track args) (arg_rollout args)
                (arg_release_notes args) (arg_draft args)) as Hrun.
  destruct (run env pkg aab (arg_track args) (arg_rollout args)
              (arg_release_notes args) (arg_draft args)) as [[b|e|] s]; cbn;
    [|discriminate|discriminate].
  destruct b; [|discriminate]. intros _.
  destruct (Hrun eq_refl) as [Hok [pfx [eid Ht]]].
  split; [exact Hok|]. exists pkg, pfx, eid. split; [exact Ht|].
  intros p Hp Hne. exact (Hres p pkg Hp Hne eq_refl).
Qed.

Lemma main_exit_0_committed_witness :
  fst (main sample_fs (happy_env []) (sample_args None)) = Ret 0%Z /\
  (Forall succeeded (trace (snd (main sample_fs (happy_env []) (sample_args None)))) /\
   exists package_name pfx edit_id,
     trace (snd (main sample_fs (happy_env []) (sample_args None)))
       = pfx ++ [{| ev_call := CCommit package_name edit_id; ev_ok := true |}] /\
     (forall p, arg_package_name (sample_args None) = Some p -> p <> "" ->
                package_name = p)).
Proof.
  assert (H : fst (main sample_fs (happy_env []) (sample_args None)) = Ret 0%Z)
    by (vm_compute; reflexivity).
  split; [exact H|].
  exact (main_exit_0_committed sample_fs (happy_env []) (sample_args None) H).
Defined.

(** With a non-empty [--package-name], [main] never reads the build files
    or the manifest: what [fs_read] returns makes no difference. *)
Theorem main_override_reads_no_file (fs : FS) (env : Env) (args : Args) (p : string)
    (read : string -> option (reply string))
    (Hp : arg_package_name args = Some p) (Hne : p <> "") :
  main {| fs_read := read; fs_list := fs_list fs; fs_mtime := fs_mtime fs;
          fs_abspath := fs_abspath fs; fs_glob := fs_glob fs |} env args
  = main fs env args.
Proof.
  unfold main, resolve_package, find_aab_file. cbn [fs_list fs_mtime fs_abspath].
  rewrite Hp. destruct (String.eqb p "") eqn:E.
  - apply String.eqb_eq in E. contradiction.
  - reflexivity.
Qed.

Lemma main_override_reads_no_file_witness :
  main {| fs_read := fun _ => Some (Fail "Permission denied");
          fs_list := fs_list sample_fs; fs_mtime := fs_mtime sample_fs;
          fs_abspath := fs_abspath sample_fs; fs_glob := fs_glob sample_fs |}
       (happy_env []) (sample_args (Some "com.example.app"))
  = main sample_fs (happy_env []) (sample_args (Some "com.example.app")).
Proof.
  apply (main_override_reads_no_file sample_fs (happy_env [])
           (sample_args (Some "com.example.app")) "com.example.app");
    [reflexivity | discriminate].
Defined.

(** Without a usable [--package-name] (absent or empty), when none of
    [build.gradle], [build.gradle.kts] and [AndroidManifest.xml] exists,
    [main] exits with status 1 before any call to the service. *)
Theorem main_no_detection_files_exit_1 (fs : FS) (env : Env) (args : Args)
    (Hover : arg_package_name args = None \/ arg_package_name args = Some "")
    (Hfiles : forall path, In path (detection_paths (fs_abspath fs (arg_project_path args))) ->
              fs_read fs path = None) :
  main fs env args = (Ret 1%Z, init).
Proof.
  unfold main.
  set (pp := fs_abspath fs (arg_project_path args)) in *.
  assert (Hg : get_package_name fs pp = Reply None).
  { unfold get_package_name, search_file.
    rewrite (Hfiles _ (or_introl eq_refl)), (Hfiles _ (or_intror (or_introl eq_refl))),
      (Hfiles _ (or_intror (or_intror (or_introl eq_refl)))).
    reflexivity. }
  unfold resolve_package.
  destruct Hover as [-> | ->]; [rewrite Hg; reflexivity|].
  cbn [String.eqb]. rewrite Hg. reflexivity.
Qed.

Definition empty_project_args : Args := {|
  arg_version := "1.13.0+32";
  arg_project_path := "/empty";
  arg_track := "production";
  arg_rollout := 100;
  arg_draft := false;
  arg_release_notes := "Bug fixes and improvements";
  arg_package_name := Some "" |}.

Lemma main_no_detection_files_exit_1_witness :
  main sample_fs (happy_env []) empty_project_args = (Ret 1%Z, init).
Proof.
  apply main_no_detection_files_exit_1.
  - right. reflexivity.
  - cbn. intros path [<- | [<- | [<- | []]]]; reflexivity.
Defined.

(** * The summary *)

(** The status line of the summary printed after a commit agrees with the
    status put in the release dict: [DRAFT] for a draft, a staged rollout
    of the given percentage for [inProgress], and [Submitted for review]
    (production) or [Published to] the track for [completed]. *)
Theorem summary_matches_release_status (version_code : Z) (release_notes track : string)
    (r : Q) (draft : bool) :
  let c := release_config version_code release_notes track r draft in
  match summary_status track r draft with
  | SDraft => status c = Some "draft"
  | SStaged r' => r' = r /\ status c = Some "inProgress" /\ userFraction c = Some (float_div r 100)
  | SSubmitted => track = "production" /\ status c = Some "completed"
  | SPublished t => t = track /\ track <> "production" /\ status c = Some "completed"
  end.
Proof.
  cbn zeta. unfold summary_status, release_config.
  destruct draft; [reflexivity|].
  destruct (String.eqb track "production") eqn:Et; cbn [andb].
  - apply String.eqb_eq in Et.
    destruct (Qltb r 100); cbn; [repeat split | split; [exact Et | reflexivity]].
  - cbn. split; [reflexivity|]. split; [|reflexivity].
    intro H. apply String.eqb_eq in H. congruence.
Qed.
